(** * docling-mcp: the agentic client, the upload route and the generation tools

    A shallow embedding of

    - [src/clients/client_sse.py]   (class [MCPClient]),
    - [src/docling_mcp/servers/mcp_server.py]   ([upload_document]),
    - [src/docling_mcp/tools/generation.py]   (the document tools),

    followed by the properties proved about them.

    Conventions.  A Python exception is represented by its [str(e)]; only
    instances of [Exception] are modelled (what [except Exception] catches).
    The language model, the MCP session and the docling document engine are
    libraries outside the repository: they are interfaces ([Env], [Engine])
    over which every definition and theorem is parametric. *)

From Stdlib Require Import String Ascii List Arith Bool ZArith Lia.
From Stdlib Require Import DecimalString.
Import ListNotations.
Set Warnings "-register-all".
Open Scope list_scope.
Open Scope string_scope.

(* ================================================================= *)
(** ** Python values and string helpers *)

Module Py.

(** [str(e)] of a raised exception. *)
Definition exn := string.

Definition nl : string := String (ascii_of_nat 10) EmptyString.

(** [sep.join(xs)] *)
Definition join (sep : string) (xs : list string) : string :=
  String.concat sep xs.

(** [str(n)] for a non-negative int. *)
Definition str_nat (n : nat) : string :=
  NilEmpty.string_of_uint (Nat.to_uint n).

(** ASCII part of [str.lower]: bytes outside [A-Z] are kept. *)
Definition lower_ascii (c : ascii) : ascii :=
  let n := nat_of_ascii c in
  if ((65 <=? n) && (n <=? 90))%nat then ascii_of_nat (n + 32) else c.

Fixpoint lower (s : string) : string :=
  match s with
  | EmptyString => EmptyString
  | String c r => String (lower_ascii c) (lower r)
  end.

(** Whitespace as [str.strip] sees it, on the UTF-8 bytes of the string.
    One byte: TAB..CR, FS..US and space. *)
Definition is_space (c : ascii) : bool :=
  let n := nat_of_ascii c in
  (((9 <=? n) && (n <=? 13)) || ((28 <=? n) && (n <=? 32)))%nat.

(** Two bytes: U+0085 and U+00A0. *)
Definition is_space2 (a b : ascii) : bool :=
  let na := nat_of_ascii a in
  let nb := nat_of_ascii b in
  ((na =? 194) && ((nb =? 133) || (nb =? 160)))%nat.

(** Three bytes: U+1680, U+2000..U+200A, U+2028, U+2029, U+202F, U+205F
    and U+3000. *)
Definition is_space3 (a b c : ascii) : bool :=
  let na := nat_of_ascii a in
  let nb := nat_of_ascii b in
  let nc := nat_of_ascii c in
  (((na =? 225) && (nb =? 154) && (nc =? 128))
   || ((na =? 226) && (nb =? 128)
       && (((128 <=? nc) && (nc <=? 138)) || (nc =? 168) || (nc =? 169) || (nc =? 175)))
   || ((na =? 226) && (nb =? 129) && (nc =? 159))
   || ((na =? 227) && (nb =? 128) && (nc =? 128)))%nat.

Fixpoint lstrip (s : string) : string :=
  match s with
  | EmptyString => EmptyString
  | String a r1 =>
      if is_space a then lstrip r1
      else match r1 with
           | EmptyString => s
           | String b r2 =>
               if is_space2 a b then lstrip r2
               else match r2 with
                    | EmptyString => s
                    | String c r3 => if is_space3 a b c then lstrip r3 else s
                    end
           end
  end.

(** A suffix made of whitespace only is dropped. *)
Fixpoint rstrip (s : string) : string :=
  match s with
  | EmptyString => EmptyString
  | String c r =>
      match lstrip s with
      | EmptyString => EmptyString
      | _ => String c (rstrip r)
      end
  end.

Definition strip (s : string) : string := rstrip (lstrip s).

(** [needle in hay] on two [str]. *)
Fixpoint contains (needle hay : string) : bool :=
  if String.prefix needle hay then true
  else match hay with
       | EmptyString => false
       | String _ rest => contains needle rest
       end.

(** Decoded JSON, as [json.loads] / [request.json()] hands it to Python.
    A [JObj] lists the items of a [dict] (keys are distinct). *)
Inductive json : Type :=
| JNull
| JBool (b : bool)
| JNum (n : Z)
| JStr (s : string)
| JArr (items : list json)
| JObj (fields : list (string * json)).

Fixpoint lookup (k : string) (fields : list (string * json)) : option json :=
  match fields with
  | [] => None
  | (k', v) :: rest => if String.eqb k k' then Some v else lookup k rest
  end.

(** [k == j] for a [str] k. *)
Definition str_eq_json (k : string) (j : json) : bool :=
  match j with
  | JStr s => String.eqb k s
  | _ => false
  end.

(** [k in v]: key membership on a dict, element membership on a list,
    substring on a str, [TypeError] on anything else. *)
Definition py_in (k : string) (v : json) : exn + bool :=
  match v with
  | JObj fields => inr (match lookup k fields with Some _ => true | None => false end)
  | JArr items => inr (existsb (str_eq_json k) items)
  | JStr s => inr (contains k s)
  | JNum _ => inl "argument of type 'int' is not iterable"
  | JBool _ => inl "argument of type 'bool' is not iterable"
  | JNull => inl "argument of type 'NoneType' is not iterable"
  end.

(** [v[k]] for a [str] k. *)
Definition py_getitem (v : json) (k : string) : exn + json :=
  match v with
  | JObj fields =>
      match lookup k fields with
      | Some x => inr x
      | None => inl ("'" ++ k ++ "'")
      end
  | JArr _ => inl "list indices must be integers or slices, not str"
  | JStr _ => inl "string indices must be integers, not 'str'"
  | JNum _ => inl "'int' object is not subscriptable"
  | JBool _ => inl "'bool' object is not subscriptable"
  | JNull => inl "'NoneType' object is not subscriptable"
  end.

End Py.

Import Py.

(* ================================================================= *)
(** ** [clients/client_sse.py]: data *)

Module Client.

Inductive role := user | assistant.

(** One content block of a model response ([content.type]). *)
Inductive block : Type :=
| TextBlock (text : string)
| ToolUseBlock (id : string) (name : string) (input : json)
| OtherBlock (type : string).

(** The [content] entry of a [tool_result] dict: the session's
    [result.content] or the [f"Error: {str(e)}"] text. *)
Inductive payload : Type :=
| RawContent (c : json)
| ErrorText (s : string).

(** The dict [{"type": "tool_result", "tool_use_id": .., "content": ..}];
    [is_error = None] when the dict has no ["is_error"] key. *)
Record tool_result : Type := mk_tool_result {
  tool_use_id : string;
  tr_content : payload;
  is_error : option bool
}.

Inductive content : Type :=
| Text (s : string)
| Blocks (bs : list block)
| ToolResults (rs : list tool_result).

Record message : Type := mk_message {
  msg_role : role;
  msg_content : content
}.

(** What [session.list_tools()] yields, and the dict built from it. *)
Record Tool : Type := mk_Tool {
  tool_name : string;
  tool_description : string;
  inputSchema : json
}.

Record tool_param : Type := mk_tool_param {
  tp_name : string;
  tp_description : string;
  tp_input_schema : json
}.

(** The keyword arguments of [anthropic.messages.create]. *)
Record request : Type := mk_request {
  req_model : string;
  req_max_tokens : nat;
  req_messages : list message;
  req_tools : option (list tool_param)
}.

(** A value bound to [context] / [conversation_summary]. *)
Inductive pyval : Type :=
| PyStr (s : string)
| PyBlock (b : block).

(** The outside world: the MCP session, the model and the renderings
    Python's [str()] gives to objects of those libraries. *)
Record Env : Type := mk_Env {
  W : Type;
  list_tools_oracle : W -> (exn + list Tool) * W;
  call_tool_oracle : string -> json -> W -> (exn + json) * W;
  create_oracle : request -> W -> (exn + list block) * W;
  str_json : json -> string;
  str_block : block -> string
}.

Existing Class Env.

(** Calls that leave the process, in the order they were made, each with
    what came back: [inl e] when the call raised [e]. *)
Inductive event : Type :=
| EvListTools (outcome : exn + list Tool)
| EvCreate (req : request) (outcome : exn + list block)
| EvCallTool (name : string) (args : json) (outcome : exn + json).

Inductive output : Type :=
| Stdout (s : string)
| Traceback (e : exn).

Definition is_create (ev : event) : bool :=
  match ev with EvCreate _ _ => true | _ => false end.

Definition is_call_tool (ev : event) : bool :=
  match ev with EvCallTool _ _ _ => true | _ => false end.

(** A model call of the turn loop carries the tool descriptors; the
    summarisation call does not. *)
Definition is_round (ev : event) : bool :=
  match ev with
  | EvCreate r _ => match req_tools r with Some _ => true | None => false end
  | _ => false
  end.

Definition is_summary_call (ev : event) : bool :=
  match ev with
  | EvCreate r _ => match req_tools r with Some _ => false | None => true end
  | _ => false
  end.

(** A failed call that no handler inside the task catches. *)
Definition is_fatal (ev : event) : bool :=
  match ev with
  | EvListTools (inl _) => true
  | EvCreate _ (inl _) => true
  | _ => false
  end.

(** The ids of the tool-invocation requests of a response, in order. *)
Fixpoint tool_use_ids (bs : list block) : list string :=
  match bs with
  | [] => []
  | ToolUseBlock id _ _ :: rest => id :: tool_use_ids rest
  | _ :: rest => tool_use_ids rest
  end.

(** The assistant turns the text segments of a response give rise to. *)
Fixpoint text_turns (bs : list block) : list message :=
  match bs with
  | [] => []
  | TextBlock t :: rest => mk_message assistant (Text t) :: text_turns rest
  | _ :: rest => text_turns rest
  end.

(** A round whose response holds no tool-invocation request. *)
Definition is_quiet_round (ev : event) : bool :=
  match ev with
  | EvCreate r (inr bs) =>
      match req_tools r, tool_use_ids bs with
      | Some _, [] => true
      | _, _ => false
      end
  | _ => false
  end.

Definition rounds (evs : list event) : nat := length (filter is_round evs).

(** Whether a response holds at least one tool-invocation request. *)
Definition requests_tools (bs : list block) : bool :=
  match tool_use_ids bs with
  | [] => false
  | _ :: _ => true
  end.

(* ----------------------------------------------------------------- *)
(** *** Effects: external calls, console output, exceptions *)

Section Effects.
Context {E : Env}.

Record world : Type := mk_world {
  ext : W E;
  trace : list event;
  console : list output
}.

Inductive result (A : Type) : Type :=
| Ok (a : A) (w : world)
| Raise (e : exn) (w : world).

Definition M (A : Type) : Type := world -> result A.

Definition ret {A : Type} (a : A) : M A := fun w => Ok A a w.

Definition bind {A B : Type} (m : M A) (k : A -> M B) : M B :=
  fun w =>
    match m w with
    | Ok _ a w' => k a w'
    | Raise _ e w' => Raise B e w'
    end.

Definition raise {A : Type} (e : exn) : M A := fun w => Raise A e w.

(** [try: body  except Exception as e: handler(e)] *)
Definition try_except {A : Type} (body : M A) (handler : exn -> M A) : M A :=
  fun w =>
    match body w with
    | Ok _ a w' => Ok A a w'
    | Raise _ e w' => handler e w'
    end.

Definition final_world {A : Type} (r : result A) : world :=
  match r with
  | Ok _ _ w => w
  | Raise _ _ w => w
  end.

Definition log_event (ev : event) (x : W E) (w : world) : world :=
  {| ext := x; trace := (trace w ++ [ev])%list; console := console w |}.

Definition emit (o : output) (w : world) : world :=
  {| ext := ext w; trace := trace w; console := (console w ++ [o])%list |}.

Definition print (s : string) : M unit := fun w => Ok unit tt (emit (Stdout s) w).

(** [await self.session.list_tools()] *)
Definition session_list_tools : M (list Tool) :=
  fun w =>
    match list_tools_oracle E (ext w) with
    | (inl e, x) => Raise _ e (log_event (EvListTools (inl e)) x w)
    | (inr ts, x) => Ok _ ts (log_event (EvListTools (inr ts)) x w)
    end.

(** [await self.session.call_tool(name, args)], giving [result.content] *)
Definition session_call_tool (name : string) (args : json) : M json :=
  fun w =>
    match call_tool_oracle E name args (ext w) with
    | (inl e, x) => Raise _ e (log_event (EvCallTool name args (inl e)) x w)
    | (inr c, x) => Ok _ c (log_event (EvCallTool name args (inr c)) x w)
    end.

(** [self.anthropic.messages.create(...)], giving [response.content] *)
Definition messages_create (req : request) : M (list block) :=
  fun w =>
    match create_oracle E req (ext w) with
    | (inl e, x) => Raise _ e (log_event (EvCreate req (inl e)) x w)
    | (inr bs, x) => Ok _ bs (log_event (EvCreate req (inr bs)) x w)
    end.

(** [for x in xs: body] over mutable locals [s]. *)
Fixpoint for_each {A S : Type} (body : A -> S -> M S) (xs : list A) (s : S) : M S :=
  match xs with
  | [] => ret s
  | x :: rest => bind (body x s) (for_each body rest)
  end.

End Effects.

Arguments world : clear implicits.
Arguments result : clear implicits.
Arguments M : clear implicits.
Arguments Ok {E A} a w.
Arguments Raise {E A} e w.

Notation "x <- c ;; k" := (bind c (fun x => k))
  (at level 61, c at next level, right associativity).
Notation "c ;;; k" := (bind c (fun _ => k))
  (at level 61, right associativity).

(* ----------------------------------------------------------------- *)
(** *** [MCPClient.process_query] *)

Section Agent.
Context {E : Env}.

(** [self.max_iterations = 20  # Prevent infinite loops] *)
Definition max_iterations : nat := 20.

Definition model_id : string := "claude-3-5-sonnet-20241022".

(** Truth value of an [Optional] carry-over value: [None] and the empty
    [str] are false, a content-block object is true. *)
Definition truthy (v : option pyval) : bool :=
  match v with
  | None => false
  | Some (PyStr s) => negb (String.eqb s "")
  | Some (PyBlock _) => true
  end.

(** How an f-string renders the value. *)
Definition py_str (v : pyval) : string :=
  match v with
  | PyStr s => s
  | PyBlock b => str_block E b
  end.

Definition context_turn (v : pyval) : message :=
  mk_message assistant (Text ("Previous conversation context: " ++ py_str v)).

(** Lines 40-52: the transcript a task starts from. *)
Definition initial_messages (query : string) (conversation_summary : option pyval)
  : list message :=
  ((if truthy conversation_summary then
      match conversation_summary with
      | Some v => [context_turn v]
      | None => []
      end
    else [])
   ++ [mk_message user (Text query)])%list.

Definition to_param (t : Tool) : tool_param :=
  mk_tool_param (tool_name t) (tool_description t) (inputSchema t).

(** The mutable locals of [process_query]. *)
Record frame : Type := mk_frame {
  messages : list message;
  execution_log : list string;
  iteration : nat;
  has_tool_calls : bool;
  tool_results : list tool_result
}.

Definition append_message (m : message) (f : frame) : frame :=
  mk_frame (messages f ++ [m])%list (execution_log f) (iteration f)
           (has_tool_calls f) (tool_results f).

Definition log_line (s : string) (f : frame) : frame :=
  mk_frame (messages f) (execution_log f ++ [s])%list (iteration f)
           (has_tool_calls f) (tool_results f).

Definition append_result (r : tool_result) (f : frame) : frame :=
  mk_frame (messages f) (execution_log f) (iteration f)
           (has_tool_calls f) (tool_results f ++ [r])%list.

Definition set_has_tool_calls (b : bool) (f : frame) : frame :=
  mk_frame (messages f) (execution_log f) (iteration f) b (tool_results f).

Definition begin_round (f : frame) : frame :=
  mk_frame (messages f) (execution_log f) (iteration f) false [].

Definition incr_iteration (f : frame) : frame :=
  mk_frame (messages f) (execution_log f) (S (iteration f))
           (has_tool_calls f) (tool_results f).

(** Lines 95-113, the tool invoker: the [try]/[except Exception] around
    [session.call_tool]. *)
Definition invoke_tool (id name : string) (tool_args : json) (f : frame) : M E frame :=
  try_except
    (result <- session_call_tool name tool_args ;;
     ret (append_result (mk_tool_result id (RawContent result) None)
            (log_line ("✅ Tool result: " ++ str_json E result) f)))
    (fun e =>
       ret (append_result (mk_tool_result id (ErrorText ("Error: " ++ e)) (Some true))
              (log_line ("❌ Tool error: " ++ e) f))).

(** Lines 81-113, the body of [for content in response.content]. *)
Definition process_content (c : block) (f : frame) : M E frame :=
  match c with
  | TextBlock text =>
      ret (append_message (mk_message assistant (Text text))
             (log_line ("Claude: " ++ text) f))
  | ToolUseBlock id tool_name tool_args =>
      invoke_tool id tool_name tool_args
        (log_line ("🔧 Calling tool '" ++ tool_name ++ "' with args: "
                   ++ str_json E tool_args)
           (set_has_tool_calls true f))
  | OtherBlock _ => ret f
  end.

(** Lines 116-118, taken when [has_tool_calls] holds. *)
Definition close_round (assistant_message_content : list block) (f : frame) : frame :=
  append_message (mk_message user (ToolResults (tool_results f)))
    (append_message (mk_message assistant (Blocks assistant_message_content)) f).

(** Lines 67-72: the request of a round. *)
Definition round_request (available_tools : list tool_param) (f : frame) : request :=
  mk_request model_id 1000 (messages f) (Some available_tools).

(** Lines 65-120: one pass through the body of the [while]; the frame
    that comes back has [has_tool_calls = false] exactly when the body
    ended in [break]. *)
Definition round (available_tools : list tool_param) (f : frame) : M E frame :=
  let f := incr_iteration f in
  response <- messages_create (round_request available_tools f) ;;
  let assistant_message_content := response in
  f <- for_each process_content response (begin_round f) ;;
  if has_tool_calls f then ret (close_round assistant_message_content f)
  else ret f.

(** Lines 64-120: [while iteration < self.max_iterations].  Every pass
    adds one to [iteration], so the loop is run on its variant
    [remaining = max_iterations - iteration]: the guard holds exactly
    when [remaining] is a successor. *)
Fixpoint turn_loop (remaining : nat) (available_tools : list tool_param) (f : frame)
  : M E frame :=
  match remaining with
  | O => ret f
  | S remaining' =>
      f' <- round available_tools f ;;
      if has_tool_calls f' then turn_loop remaining' available_tools f'
      else ret f'
  end.

Definition ceiling_notice : string :=
  "⚠️ Reached maximum iterations (" ++ str_nat max_iterations ++ ")".

(** Lines 122-123. *)
Definition note_ceiling (f : frame) : frame :=
  if (max_iterations <=? iteration f)%nat then log_line ceiling_notice f else f.

Definition summary_prompt : message :=
  mk_message user (Text "Please provide a brief summary of the conversation so far. Make sure to prioritize the user's goals, actions taken, and any important data like document keys that will be important for the continuation of work. List the most recent actions first").

Definition summary_request (transcript : list message) : request :=
  mk_request model_id 200 (transcript ++ [summary_prompt])%list None.

(** [summary.content[0]] *)
Definition first_block (bs : list block) : M E block :=
  match bs with
  | b :: _ => ret b
  | [] => raise "list index out of range"
  end.

(** Lines 125-136, the context compressor. *)
Definition compress (transcript : list message) : M E pyval :=
  print (nl ++ "System: Compressing conversation context...") ;;;
  summary <- messages_create (summary_request transcript) ;;
  new_summary <- first_block summary ;;
  ret (PyBlock new_summary).

Definition initial_frame (query : string) (conversation_summary : option pyval) : frame :=
  mk_frame (initial_messages query conversation_summary) [] 0 false [].

(** The turn loop and the ceiling check, lines 54-123. *)
Definition run_turns (query : string) (conversation_summary : option pyval) : M E frame :=
  response <- session_list_tools ;;
  let available_tools := map to_param response in
  f <- turn_loop (max_iterations - 0) available_tools
         (initial_frame query conversation_summary) ;;
  ret (note_ceiling f).

Definition process_query (query : string) (conversation_summary : option pyval)
  : M E (string * pyval) :=
  f <- run_turns query conversation_summary ;;
  new_summary <- compress (messages f) ;;
  ret (join nl (execution_log f), new_summary).

  (* --------------------------------------------------------------- *)
(** *** [MCPClient.process_query_with_streaming]

    Here the assistant turns hold [assistant_message_content] itself, a
    list object that keeps growing during the round, so the transcript
    stores a location and the request sent to the model reads the
    heap. *)

Inductive sturn : Type :=
| SQuery (text : string)
| SAssistant (loc : nat)
| SResults (rs : list tool_result).

Record sframe : Type := mk_sframe {
  s_heap : list (list block);
  s_messages : list sturn;
  s_iteration : nat;
  s_has_tool_calls : bool;
  s_current : nat
}.

Definition deref (heap : list (list block)) (t : sturn) : message :=
  match t with
  | SQuery q => mk_message user (Text q)
  | SAssistant l => mk_message assistant (Blocks (nth l heap []))
  | SResults rs => mk_message user (ToolResults rs)
  end.

Fixpoint heap_append (l : nat) (c : block) (heap : list (list block))
  : list (list block) :=
  match heap, l with
  | [], _ => []
  | bs :: rest, O => (bs ++ [c])%list :: rest
  | bs :: rest, S l' => bs :: heap_append l' c rest
  end.

(** [assistant_message_content = []] *)
Definition fresh_content (f : sframe) : sframe :=
  mk_sframe (s_heap f ++ [[]])%list (s_messages f) (s_iteration f)
            (s_has_tool_calls f) (length (s_heap f)).

(** [assistant_message_content.append(content)] *)
Definition grow_content (c : block) (f : sframe) : sframe :=
  mk_sframe (heap_append (s_current f) c (s_heap f)) (s_messages f) (s_iteration f)
            (s_has_tool_calls f) (s_current f).

Definition s_append (ts : list sturn) (f : sframe) : sframe :=
  mk_sframe (s_heap f) (s_messages f ++ ts)%list (s_iteration f)
            (s_has_tool_calls f) (s_current f).

Definition s_set_has_tool_calls (b : bool) (f : sframe) : sframe :=
  mk_sframe (s_heap f) (s_messages f) (s_iteration f) b (s_current f).

Definition s_incr_iteration (f : sframe) : sframe :=
  mk_sframe (s_heap f) (s_messages f) (S (s_iteration f))
            (s_has_tool_calls f) (s_current f).

(** Lines 175-223. *)
Definition s_process_content (c : block) (f : sframe) : M E sframe :=
  let f := grow_content c f in
  match c with
  | TextBlock text => print ("Claude: " ++ text) ;;; ret f
  | ToolUseBlock id tool_name tool_args =>
      let f := s_set_has_tool_calls true f in
      print ("🔧 Calling '" ++ tool_name ++ "'...") ;;;
      try_except
        (result <- session_call_tool tool_name tool_args ;;
         print "✅ Success" ;;;
         ret (s_append [SAssistant (s_current f);
                        SResults [mk_tool_result id (RawContent result) None]] f))
        (fun e =>
           print ("❌ Error: " ++ e) ;;;
           ret (s_append [SAssistant (s_current f);
                          SResults [mk_tool_result id (ErrorText ("Error: " ++ e))
                                      (Some true)]] f))
  | OtherBlock _ => ret f
  end.

(** Lines 160-231. *)
Definition s_round (available_tools : list tool_param) (f : sframe) : M E sframe :=
  let f := s_incr_iteration f in
  print (nl ++ "--- Iteration " ++ str_nat (s_iteration f) ++ " ---") ;;;
  response <- messages_create
                (mk_request model_id 1000 (map (deref (s_heap f)) (s_messages f))
                   (Some available_tools)) ;;
  f <- for_each s_process_content response
         (s_set_has_tool_calls false (fresh_content f)) ;;
  if negb (s_has_tool_calls f) then print "🏁 Task complete!" ;;; ret f
  else ret (fresh_content f).

Fixpoint s_turn_loop (remaining : nat) (available_tools : list tool_param) (f : sframe)
  : M E sframe :=
  match remaining with
  | O => ret f
  | S remaining' =>
      f' <- s_round available_tools f ;;
      if s_has_tool_calls f' then s_turn_loop remaining' available_tools f'
      else ret f'
  end.

Definition process_query_with_streaming (query : string) : M E string :=
  let f := mk_sframe [] [SQuery query] 0 false 0 in
  response <- session_list_tools ;;
  let available_tools := map to_param response in
  print (nl ++ "🤖 Processing: " ++ query) ;;;
  f <- s_turn_loop (max_iterations - 0) available_tools f ;;
  (if (max_iterations <=? s_iteration f)%nat then print ceiling_notice else ret tt) ;;;
  ret "Task completed!".

(* --------------------------------------------------------------- *)
(** *** [MCPClient.chat_loop] *)

(** The two locals of [chat_loop] that survive an iteration. *)
Record shell : Type := mk_shell {
  context : pyval;
  streaming_mode : bool
}.

Inductive control : Type :=
| Continue (st : shell)
| Break.

Definition sentinel : pyval := PyStr "None. Start of a new conversation.".

Definition prompt (st : shell) : string :=
  nl ++ "Query" ++ (if streaming_mode st then "(streaming)" else "") ++ ": ".

(** A query that is none of the shell's own commands starts a task. *)
Definition is_command (query : string) : bool :=
  String.eqb (lower query) "quit" || String.eqb (lower query) "stream"
  || String.eqb (lower query) "context" || String.eqb (lower query) "reset".

(** Lines 249-270, the body of the [try]; [line] is what [input] read. *)
Definition chat_body (st : shell) (line : string) : M E control :=
  print (prompt st) ;;;
  let query := strip line in
  if String.eqb (lower query) "quit" then ret Break
  else if String.eqb (lower query) "stream" then
    let st := mk_shell (context st) (negb (streaming_mode st)) in
    print ("Streaming mode: " ++ (if streaming_mode st then "ON" else "OFF")) ;;;
    ret (Continue st)
  else if String.eqb (lower query) "context" then
    print (nl ++ "Current context: " ++ py_str (context st)) ;;;
    ret (Continue st)
  else if String.eqb (lower query) "reset" then
    let st := mk_shell sentinel (streaming_mode st) in
    print (nl ++ "Context reset.") ;;;
    ret (Continue st)
  else if streaming_mode st then
    process_query_with_streaming query ;;;
    ret (Continue st)
  else
    r <- process_query query (Some (context st)) ;;
    let '(response, new_context) := r in
    let st := mk_shell new_context (streaming_mode st) in
    print (nl ++ response) ;;;
    ret (Continue st).

(** Lines 248-275: one iteration of [while True], with its handler.  No
    branch of the body assigns a local before a call that can raise, so
    the handler resumes with the locals the iteration started from. *)
Definition chat_step (st : shell) (line : string) (w : world E) : control * world E :=
  match chat_body st line w with
  | Ok c w' => (c, w')
  | Raise e w' => (Continue st, emit (Traceback e) (emit (Stdout (nl ++ "Error: " ++ e)) w'))
  end.

(** The loop over the lines typed so far. *)
Fixpoint serve (lines : list string) (st : shell) (w : world E) : shell * world E :=
  match lines with
  | [] => (st, w)
  | line :: rest =>
      match chat_step st line w with
      | (Continue st', w') => serve rest st' w'
      | (Break, w') => (st, w')
      end
  end.

Definition chat_loop (lines : list string) (w : world E) : shell * world E :=
  serve lines (mk_shell sentinel false)
    (emit (Stdout "Type queries, 'stream' for streaming mode, or 'quit' to exit")
       (emit (Stdout (nl ++ "Agentic MCP Client ready")) w)).

End Agent.

End Client.

(* ================================================================= *)
(** ** The document server: [servers/mcp_server.py], [tools/generation.py] *)

Module Docling.

(** [docling_core] labels, as far as the tools look at them. *)
Inductive GroupLabel : Type :=
| LIST
| ORDERED_LIST
| OTHER_GROUP (name : string).

Inductive DocItemLabel : Type :=
| TEXT
| CAPTION
| FOOTNOTE.

(** A node handed back by the document: a [GroupItem] with its label, or
    any other item. *)
Inductive NodeItem : Type :=
| GroupItem (self_ref : string) (label : GroupLabel)
| DocItem (self_ref : string).

(** The interface of [DoclingDocument] and [DocumentConverter] the tools
    rely on.  [convert_html] gives [(status == SUCCESS, document.tables)]. *)
Record Engine : Type := mk_Engine {
  Doc : Type;
  TableData : Type;
  Table : Type;
  model_validate : json -> exn + Doc;
  export_to_dict : Doc -> json;
  export_to_markdown : Doc -> string;
  add_title : string -> Doc -> NodeItem * Doc;
  add_heading : string -> nat -> Doc -> NodeItem * Doc;
  add_text : DocItemLabel -> string -> Doc -> NodeItem * Doc;
  add_group : GroupLabel -> Doc -> NodeItem * Doc;
  add_list_item : string -> string -> NodeItem -> Doc -> Doc;
  add_table : TableData -> Doc -> Table * Doc;
  append_caption : Table -> NodeItem -> Doc -> Doc;
  append_footnote : Table -> NodeItem -> Doc -> Doc;
  convert_html : string -> exn + (bool * list TableData)
}.

Section Server.
Context {G : Engine}.

(** The module globals [shared.document] and [stack_cache] (the list
    object imported by name; the tools only mutate it). *)
Record shared : Type := mk_shared {
  document : option (Doc G);
  stack_cache : list NodeItem
}.

(* --------------------------------------------------------------- *)
(** *** [upload_document], the [POST /document] route *)

Inductive body : Type :=
| Message (s : string)
| Error (s : string).

Record JSONResponse : Type := mk_JSONResponse {
  resp_content : body;
  status_code : nat
}.

(** [request_json] is what [await request.json()] does: the decoded
    body, or the decoder's exception. *)
Definition upload_document (request_json : exn + json) (s : shared)
  : (exn + JSONResponse) * shared :=
  match request_json with
  | inl e => (inl e, s)
  | inr json_data =>
      match py_in "document" json_data with
      | inl e => (inl e, s)
      | inr true =>
          match py_getitem json_data "document" with
          | inl e => (inl e, s)
          | inr d =>
              match model_validate G d with
              | inl e => (inl e, s)
              | inr doc =>
                  (inr (mk_JSONResponse (Message "Document uploaded successfully.") 200),
                   mk_shared (Some doc) (stack_cache s))
              end
          end
      | inr false =>
          (inr (mk_JSONResponse (Error "No document provided in the request.") 400), s)
      end
  end.

(* --------------------------------------------------------------- *)
(** *** The generation tools *)

Definition T (A : Type) : Type := shared -> (exn + A) * shared.

Definition tret {A : Type} (a : A) : T A := fun s => (inr a, s).

Definition tbind {A B : Type} (m : T A) (k : A -> T B) : T B :=
  fun s =>
    match m s with
    | (inl e, s') => (inl e, s')
    | (inr a, s') => k a s'
    end.

Definition value_error {A : Type} (msg : string) : T A := fun s => (inl msg, s).

Local Notation "x <- c ;; k" := (tbind c (fun x => k))
  (at level 61, c at next level, right associativity).
Local Notation "c ;;; k" := (tbind c (fun _ => k))
  (at level 61, right associativity).

Definition not_initialized : string :=
  "Document has not been initialized. Please load a document first.".

Definition stack_size_zero : string :=
  "Stack size is zero for the shared Docling Document. Abort document generation".

(** [if not shared.document: raise ValueError(...)] *)
Definition the_document : T (Doc G) :=
  fun s =>
    match document s with
    | None => (inl not_initialized, s)
    | Some doc => (inr doc, s)
    end.

(** [if len(stack_cache) == 0: raise ValueError(...)] *)
Definition check_stack : T unit :=
  fun s =>
    if (length (stack_cache s) =? 0)%nat then (inl stack_size_zero, s) else (inr tt, s).

Definition set_document (doc : Doc G) : T unit :=
  fun s => (inr tt, mk_shared (Some doc) (stack_cache s)).

Definition set_stack (st : list NodeItem) : T unit :=
  fun s => (inr tt, mk_shared (document s) st).

(** [stack_cache[-1]] *)
Definition top : T NodeItem :=
  fun s =>
    match rev (stack_cache s) with
    | x :: _ => (inr x, s)
    | [] => (inl "list index out of range", s)
    end.

(** [stack_cache[-1] = item] *)
Definition set_top (item : NodeItem) : T unit :=
  fun s =>
    match stack_cache s with
    | [] => (inl "list assignment index out of range", s)
    | _ => (inr tt, mk_shared (document s) (removelast (stack_cache s) ++ [item])%list)
    end.

(** [stack_cache.append(item)] *)
Definition push (item : NodeItem) : T unit :=
  fun s => (inr tt, mk_shared (document s) (stack_cache s ++ [item])%list).

(** [stack_cache.pop()] *)
Definition pop : T unit :=
  fun s =>
    match stack_cache s with
    | [] => (inl "pop from empty list", s)
    | _ => (inr tt, mk_shared (document s) (removelast (stack_cache s)))
    end.

(** [isinstance(parent, GroupItem)] with a LIST or ORDERED_LIST label. *)
Definition is_open_list (parent : NodeItem) : bool :=
  match parent with
  | GroupItem _ LIST => true
  | GroupItem _ ORDERED_LIST => true
  | _ => false
  end.

(** [DocumentUpdateOutput(shared.document.export_to_dict())] *)
Definition update_output : T json :=
  doc <- the_document ;; tret (export_to_dict G doc).

Definition export_docling_document_to_markdown : T string :=
  doc <- the_document ;;
  tret (export_to_markdown G doc).

Definition add_title_to_docling_document (title : string) : T json :=
  doc <- the_document ;;
  check_stack ;;;
  parent <- top ;;
  if is_open_list parent then
    value_error "A list is currently opened. Please close the list before adding a title!"
  else
    let (item, doc') := add_title G title doc in
    set_document doc' ;;;
    set_top item ;;;
    update_output.

Definition add_section_heading_to_docling_document
  (section_heading : string) (section_level : nat) : T json :=
  doc <- the_document ;;
  check_stack ;;;
  parent <- top ;;
  if is_open_list parent then
    value_error "A list is currently opened. Please close the list before adding a section-heading!"
  else
    let (item, doc') := add_heading G section_heading section_level doc in
    set_document doc' ;;;
    set_top item ;;;
    update_output.

Definition add_paragraph_to_docling_document (paragraph : string) : T json :=
  doc <- the_document ;;
  check_stack ;;;
  parent <- top ;;
  if is_open_list parent then
    value_error "A list is currently opened. Please close the list before adding a paragraph!"
  else
    let (item, doc') := add_text G TEXT paragraph doc in
    set_document doc' ;;;
    set_top item ;;;
    update_output.

Definition open_list_in_docling_document : T json :=
  doc <- the_document ;;
  check_stack ;;;
  let (item, doc') := add_group G LIST doc in
  set_document doc' ;;;
  push item ;;;
  update_output.

Definition close_list_in_docling_document : T json :=
  doc <- the_document ;;
  check_stack ;;;
  pop ;;;
  update_output.

Record ListItem : Type := mk_ListItem {
  list_item_text : string;
  list_marker_text : string
}.

Definition add_list_items_to_list_in_docling_document (list_items : list ListItem)
  : T json :=
  doc <- the_document ;;
  check_stack ;;;
  parent <- top ;;
  if is_open_list parent then
    set_document
      (fold_left
         (fun d li => add_list_item G (list_item_text li) (list_marker_text li) parent d)
         list_items doc) ;;;
    update_output
  else
    value_error "No list is currently opened. Please open a list before adding list-items!".

Definition add_table_in_html_format_to_docling_document
  (html_table : string) (table_captions table_footnotes : option (list string))
  : T json :=
  doc <- the_document ;;
  check_stack ;;;
  let html_doc := "<html><body>" ++ html_table ++ "</body></html>" in
  match convert_html G html_doc with
  | inl e => value_error e
  | inr (true, data :: _) =>
      let (table, doc1) := add_table G data doc in
      let doc2 :=
        fold_left
          (fun d c => let (caption, d') := add_text G CAPTION c d in
                      append_caption G table caption d')
          (match table_captions with Some cs => cs | None => [] end) doc1 in
      let doc3 :=
        fold_left
          (fun d c => let (footnote, d') := add_text G FOOTNOTE c d in
                      append_footnote G table footnote d')
          (match table_footnotes with Some cs => cs | None => [] end) doc2 in
      set_document doc3 ;;;
      update_output
  | inr _ =>
      value_error "Could not parse the html string of the table! Please fix the html and try again!"
  end.

(** The route in the words of the specification: 200 with a
    confirmation when the body has a [document] field, 400 with an
    error payload when it has none. *)
Definition has_document_field (json_data : json) : bool :=
  match json_data with
  | JObj fields => match lookup "document" fields with Some _ => true | None => false end
  | _ => false
  end.

Definition upload_as_specified (json_data : json) (r : exn + JSONResponse) : Prop :=
  if has_document_field json_data then
    exists confirmation, r = inr (mk_JSONResponse (Message confirmation) 200)
  else
    exists payload, r = inr (mk_JSONResponse (Error payload) 400).

(** A tool that replaces the top of the stack by the item it adds. *)
Definition replaces_top (refusal : string) (doc : Doc G) (st : list NodeItem)
  (parent : NodeItem) (added : NodeItem * Doc G) : (exn + json) * shared :=
  if is_open_list parent then
    (inl refusal, mk_shared (Some doc) (st ++ [parent]))
  else
    (inr (export_to_dict G (snd added)), mk_shared (Some (snd added)) (st ++ [fst added])).

(** The document after [add_list_item] for each item in turn. *)
Definition with_items (doc : Doc G) (parent : NodeItem) (list_items : list ListItem)
  : Doc G :=
  fold_left (fun d li => add_list_item G (list_item_text li) (list_marker_text li) parent d)
    list_items doc.

(** The tools registered with [@mcp.tool], with their arguments. *)
Inductive tool_call : Type :=
| ExportMarkdown
| AddTitle (title : string)
| AddSectionHeading (section_heading : string) (section_level : nat)
| AddParagraph (paragraph : string)
| OpenList
| CloseList
| AddListItems (list_items : list ListItem)
| AddTable (html_table : string) (table_captions table_footnotes : option (list string)).

Inductive tool_output : Type :=
| Markdown (s : string)
| DocumentUpdate (document : json).

Definition as_update (m : T json) : T tool_output :=
  fun s => match m s with
           | (inl e, s') => (inl e, s')
           | (inr d, s') => (inr (DocumentUpdate d), s')
           end.

Definition run_tool (c : tool_call) : T tool_output :=
  match c with
  | ExportMarkdown =>
      fun s => match export_docling_document_to_markdown s with
               | (inl e, s') => (inl e, s')
               | (inr m, s') => (inr (Markdown m), s')
               end
  | AddTitle title => as_update (add_title_to_docling_document title)
  | AddSectionHeading h l => as_update (add_section_heading_to_docling_document h l)
  | AddParagraph p => as_update (add_paragraph_to_docling_document p)
  | OpenList => as_update open_list_in_docling_document
  | CloseList => as_update close_list_in_docling_document
  | AddListItems items => as_update (add_list_items_to_list_in_docling_document items)
  | AddTable html captions footnotes =>
      as_update (add_table_in_html_format_to_docling_document html captions footnotes)
  end.

(** The height the stack has after a successful call. *)
Definition height_after (c : tool_call) (height : nat) : nat :=
  match c with
  | OpenList => S height
  | CloseList => pred height
  | _ => height
  end.

End Server.

Arguments shared : clear implicits.

End Docling.

(* ================================================================= *)
(** ** The sidecar: [servers/api_server.py] *)

Module Sidecar.

(** The cache directory as the routes see it: its path [CACHE_DIR]; what
    [CACHE_DIR.exists()] says; the names the scan of the directory yields
    to [glob], in its order (dangling links included, nothing when the
    directory cannot be read); and what [(CACHE_DIR / name).exists()]
    says of a name, which follows links and does not read the
    directory. *)
Record cache : Type := mk_cache {
  CACHE_DIR : string;
  dir_exists : bool;
  scanned : list string;
  path_exists : string -> bool
}.

(** What a route does: a response, or [raise HTTPException(...)]. *)
Inductive answer (A : Type) : Type :=
| Respond (a : A)
| HTTPException (status_code : nat) (detail : string).

Arguments Respond {A} a.
Arguments HTTPException {A} status_code detail.

Record FileResponse : Type := mk_FileResponse {
  path : string;
  media_type : string
}.

(** [name == suffix] or some tail of [name] is: the names the pattern
    [*suffix] matches. *)
Fixpoint ends_with (suffix name : string) : bool :=
  if String.eqb name suffix then true
  else match name with
       | EmptyString => false
       | String _ rest => ends_with suffix rest
       end.

(** [CACHE_DIR / name] *)
Definition child (c : cache) (name : string) : string := CACHE_DIR c ++ "/" ++ name.

(** [GET /cache/{cache_key}]; the route parameter is one path segment, so
    [cache_key] holds no [/]. *)
Definition get_markdown (c : cache) (cache_key : string) : answer FileResponse :=
  let file_name := cache_key ++ ".md" in
  if negb (path_exists c file_name) then
    HTTPException 404 ("File " ++ cache_key ++ ".md not found in cache.")
  else Respond (mk_FileResponse (child c file_name) "text/markdown").

(** [GET /cache]; the answer is the list under the key [files]. *)
Definition list_cache_files (c : cache) : answer (list string) :=
  if negb (dir_exists c) then HTTPException 404 "Cache directory does not exist."
  else
    let files := filter (ends_with ".md") (scanned c) in
    match files with
    | [] => HTTPException 404 ("No markdown files found in cache at " ++ CACHE_DIR c)
    | _ :: _ => Respond files
    end.

(** The scan and [exists()] tell the same of the markdown names: the
    directory exists and can be read, and no listed name is a dangling
    link. *)
Definition scan_agrees (c : cache) : Prop :=
  dir_exists c = true
  /\ forall cache_key,
       path_exists c (cache_key ++ ".md") = true <-> In (cache_key ++ ".md") (scanned c).

End Sidecar.

(* ================================================================= *)
(** ** Concrete collaborators, used to run the definitions *)

Module Demo.
Import Client.

Definition title_tool : Tool :=
  mk_Tool "add_title_to_docling_document" "Add or update title to Docling document"
          (JObj [("title", JStr "string")]).

(** The model plays back a script of responses, one per call, and answers
    [done] once the script is used up; the session knows every tool name
    but [no_such_tool]. *)
Definition script : Type := list (exn + list block).

Definition play (tools : exn + list Tool) : Env :=
  mk_Env script
    (fun s => (tools, s))
    (fun name _ s =>
       (if String.eqb name "no_such_tool" then inl "Unknown tool: no_such_tool"
        else inr (JArr [JStr "ok"]), s))
    (fun _ s =>
       match s with
       | [] => (inr [TextBlock "done"], [])
       | r :: rest => (r, rest)
       end)
    (fun _ => "<json>")
    (fun b => match b with TextBlock t => t | _ => "<block>" end).

Definition online : Env := play (inr [title_tool]).
Definition offline : Env := play (inl "Connection closed").

Definition start (tools : exn + list Tool) (s : script) : world (play tools) :=
  mk_world (E := play tools) s [] [].

Definition use (id name : string) : block := ToolUseBlock id name (JObj []).

Definition empty_frame : frame := mk_frame [] [] 0 false [].

Definition frame_of {E : Env} (r : result E frame) : frame :=
  match r with
  | Ok f _ => f
  | Raise _ _ => empty_frame
  end.

(** A task whose first response is plain text. *)
Definition quiet_task : result online (string * pyval) :=
  process_query "hello" (Some sentinel)
    (start _ [inr [TextBlock "hi"]; inr [TextBlock "S"]]).

Definition quiet_trace : list event := trace (final_world quiet_task).

Definition busy (n : nat) : script := repeat (inr [use "toolu" "add_title"]) n.

(** Twenty-five responses in a row that request a tool. *)
Definition ceiling_world : world online := start _ (busy 25).
Definition ceiling_turns : result online frame := run_turns "loop" None ceiling_world.

(** Two tasks in a row in non-streaming mode; the first one is summarised
    as [S1]. *)
Definition two_tasks_world : world online :=
  start _ [inr [TextBlock "hi"]; inr [TextBlock "S1"];
           inr [TextBlock "ok"]; inr [TextBlock "S2"]].

Definition after_first : control * world online :=
  chat_step (mk_shell sentinel false) "first" two_tasks_world.

Definition shell_after_first : shell :=
  match fst after_first with
  | Continue st => st
  | Break => mk_shell sentinel false
  end.

Definition after_second : control * world online :=
  chat_step shell_after_first "second" (snd after_first).

Definition transcripts (evs : list event) : list (list message) :=
  flat_map (fun ev => match ev with
                      | EvCreate req _ => [req_messages req]
                      | _ => []
                      end) evs.

(** The transcript the second task sends with its first request. *)
Definition second_transcript : list message :=
  nth 2 (transcripts (trace (snd after_second))) [].

(** A task started in streaming mode, and one started while the session
    is down. *)
Definition streaming_shell : shell := mk_shell (PyStr "earlier summary") true.
Definition streaming_world : world online :=
  start _ [inr [use "toolu_1" "add_title"]; inr [TextBlock "fine"]].

Definition plain_shell : shell := mk_shell (PyStr "earlier summary") false.
Definition offline_world : world offline := start _ [].

(** Nineteen responses that request a tool, then plain text. *)
Definition late_quiet_world : world online :=
  start _ (busy 19 ++ [inr [TextBlock "all done"]; inr [TextBlock "S"]])%list.
Definition late_quiet_turns : result online frame :=
  run_turns "work" None late_quiet_world.

(** A document engine that keeps the list of operations applied to a
    document, and validates JSON objects only. *)
Definition applied (d : list string) (op : string) : list string := (d ++ [op])%list.

Definition engine : Docling.Engine :=
  Docling.mk_Engine (list string) string nat
    (fun j => match j with
              | JObj _ => inr ["uploaded"]
              | _ => inl "1 validation error for DoclingDocument"
              end)
    (fun d => JArr (map JStr d))
    (fun d => join nl d)
    (fun t d => (Docling.DocItem "#/texts", applied d ("title " ++ t)))
    (fun t _ d => (Docling.DocItem "#/texts", applied d ("heading " ++ t)))
    (fun _ t d => (Docling.DocItem "#/texts", applied d ("text " ++ t)))
    (fun l d => (Docling.GroupItem "#/groups" l, applied d "group"))
    (fun t m _ d => applied d ("item " ++ m ++ " " ++ t))
    (fun t d => (length d, applied d ("table " ++ t)))
    (fun _ _ d => applied d "caption")
    (fun _ _ d => applied d "footnote")
    (fun html => inr (true, [html])).

Definition one_item : Docling.shared engine :=
  Docling.mk_shared (G := engine) (Some ["text prompt"]) [Docling.DocItem "#/texts"].

Definition no_document : Docling.shared engine :=
  Docling.mk_shared (G := engine) None [].

(** A task answered with plain text, run without a carry-over value. *)
Definition hello_world : world online := start _ [inr [TextBlock "hi"]; inr [TextBlock "S"]].
Definition hello_turns : result online frame := run_turns "hello" None hello_world.

(** The same task with the empty string as carry-over value. *)
Definition blank_context_task : result online (string * pyval) :=
  process_query "hello" (Some (PyStr "")) hello_world.

(** Tasks whose summary response is empty, or holds two blocks. *)
Definition empty_summary_world : world online := start _ [inr [TextBlock "hi"]; inr []].
Definition two_block_world : world online :=
  start _ [inr [TextBlock "hi"]; inr [TextBlock "S"; TextBlock "more"]].

Definition turns_from (w : world online) : result online frame :=
  run_turns "hello" (Some (context plain_shell)) (emit (Stdout (prompt plain_shell)) w).

(** The frame a streaming task starts from, and a response whose text
    comes after its tool request. *)
Definition fresh_stream : sframe := mk_sframe [] [SQuery "add a title"] 0 false 0.
Definition late_text : list block := [use "toolu_1" "add_title"; TextBlock "after"].

(** A document with a list open on top of a text item. *)
Definition list_open : Docling.shared engine :=
  Docling.mk_shared (G := engine) (Some ["text prompt"; "group"])
    [Docling.DocItem "#/texts"; Docling.GroupItem "#/groups" Docling.LIST].

Definition opened : (exn + json) * Docling.shared engine :=
  Docling.open_list_in_docling_document one_item.

Definition update_of (r : exn + json) : json :=
  match r with
  | inr j => j
  | inl _ => JNull
  end.

Definition output_of (r : exn + Docling.tool_output) : Docling.tool_output :=
  match r with
  | inr o => o
  | inl _ => Docling.Markdown ""
  end.

(** A cache directory with a markdown file, another file and a link
    [broken.md] whose target is gone. *)
Definition some_cache : Sidecar.cache :=
  Sidecar.mk_cache "/tmp/cache" true ["a.md"; "notes.txt"; "broken.md"]
    (fun name => String.eqb name "a.md" || String.eqb name "notes.txt").

(** A cache directory without such links. *)
Definition tidy_cache : Sidecar.cache :=
  Sidecar.mk_cache "/tmp/cache" true ["a.md"; "notes.txt"; "b.md"]
    (fun name => existsb (String.eqb name) ["a.md"; "notes.txt"; "b.md"]).

End Demo.

(* ================================================================= *)
(** ** Runs of the turn loop and of a task, as relations on the call trace *)

Module Runs.
Import Client.

(** What a round that received [response] leaves behind: [tevs] are the
    calls made after the model call, [f'] the frame at the end of the
    body of the [while]. *)
Record round_effect (f : frame) (response : list block) (tevs : list event)
  (f' : frame) : Prop := mk_round_effect {
  re_tools : forallb is_call_tool tevs = true;
  re_count : length tevs = length (tool_use_ids response);
  re_iteration : iteration f' = S (iteration f);
  re_flag : has_tool_calls f' = requests_tools response;
  re_ids : map tool_use_id (tool_results f') = tool_use_ids response;
  re_messages :
    messages f'
    = (messages f ++ text_turns response
       ++ (if requests_tools response then
             [mk_message assistant (Blocks response);
              mk_message user (ToolResults (tool_results f'))]
           else []))%list
}.

(** [loop_run tools n f evs r]: the [while] started with [n] passes left
    in frame [f] makes the calls [evs] and ends with [r], the frame at
    its exit or the exception that left it. *)
Inductive loop_run (tools : list tool_param)
  : nat -> frame -> list event -> exn + frame -> Prop :=
| LoopGuard (f : frame) :
    loop_run tools 0 f [] (inr f)
| LoopFail (n : nat) (f : frame) (e : exn) :
    loop_run tools (S n) f [EvCreate (round_request tools f) (inl e)] (inl e)
| LoopBreak (n : nat) (f : frame) (response : list block) (tevs : list event)
    (f' : frame) :
    requests_tools response = false ->
    round_effect f response tevs f' ->
    loop_run tools (S n) f
      (EvCreate (round_request tools f) (inr response) :: tevs) (inr f')
| LoopNext (n : nat) (f : frame) (response : list block) (tevs : list event)
    (f' : frame) (evs : list event) (r : exn + frame) :
    requests_tools response = true ->
    round_effect f response tevs f' ->
    loop_run tools n f' evs r ->
    loop_run tools (S n) f
      (EvCreate (round_request tools f) (inr response) :: tevs ++ evs) r.

(** [task_run query ctx evs r]: the calls of one [process_query] and what
    it returns or raises. *)
Inductive task_run {E : Env} (query : string) (ctx : option pyval)
  : list event -> exn + string * pyval -> Prop :=
| TaskNoTools (e : exn) :
    task_run query ctx [EvListTools (inl e)] (inl e)
| TaskLoopFails (ts : list Tool) (evs : list event) (e : exn) :
    loop_run (map to_param ts) max_iterations (initial_frame (E := E) query ctx) evs (inl e) ->
    task_run query ctx (EvListTools (inr ts) :: evs) (inl e)
| TaskSummaryFails (ts : list Tool) (evs : list event) (f : frame) (e : exn) :
    loop_run (map to_param ts) max_iterations (initial_frame (E := E) query ctx) evs (inr f) ->
    task_run query ctx
      (EvListTools (inr ts) :: evs ++ [EvCreate (summary_request (messages f)) (inl e)])
      (inl e)
| TaskEmptySummary (ts : list Tool) (evs : list event) (f : frame) :
    loop_run (map to_param ts) max_iterations (initial_frame (E := E) query ctx) evs (inr f) ->
    task_run query ctx
      (EvListTools (inr ts) :: evs ++ [EvCreate (summary_request (messages f)) (inr [])])
      (inl "list index out of range")
| TaskDone (ts : list Tool) (evs : list event) (f : frame) (b : block)
    (rest : list block) :
    loop_run (map to_param ts) max_iterations (initial_frame (E := E) query ctx) evs (inr f) ->
    task_run query ctx
      (EvListTools (inr ts) :: evs
       ++ [EvCreate (summary_request (messages f)) (inr (b :: rest))])
      (inr (join nl (execution_log (note_ceiling f)), PyBlock b)).

(** The transcript a round leaves when its response requests no tool:
    its request plus the turns of its text segments. *)
Definition transcript_after (ev : event) : list message :=
  match ev with
  | EvCreate req (inr response) => (req_messages req ++ text_turns response)%list
  | _ => []
  end.

(** The exception a failed call raised. *)
Definition failure (ev : event) : option exn :=
  match ev with
  | EvListTools (inl e) => Some e
  | EvCreate _ (inl e) => Some e
  | EvCallTool _ _ (inl e) => Some e
  | _ => None
  end.

Definition no_summary_call (evs : list event) : Prop :=
  forallb (fun ev => negb (is_summary_call ev)) evs = true.

(** A call that neither fails fatally nor asks for a summary. *)
Definition harmless (ev : event) : bool :=
  negb (is_fatal ev) && negb (is_summary_call ev).

(** The calls of a streaming task: harmless ones, closed by the failed
    call when the task was left by an exception. *)
Definition stream_shape {A : Type} (evs : list event) (r : exn + A) : Prop :=
  match r with
  | inr _ => forallb harmless evs = true
  | inl e =>
      exists pre last,
        evs = (pre ++ [last])%list
        /\ forallb harmless pre = true
        /\ is_fatal last = true
        /\ failure last = Some e
        /\ is_summary_call last = false
  end.

(** The envelope the invoker builds, by the outcome of the session call:
    the success envelope has no [is_error] key, the error envelope
    prefixes the exception's string with [Error: ]. *)
Definition envelope_as_built (out : exn + json) (env : tool_result) : Prop :=
  match out with
  | inr c => tr_content env = RawContent c /\ is_error env = None
  | inl e => tr_content env = ErrorText ("Error: " ++ e) /\ is_error env = Some true
  end.

(** The envelope in the words of the specification: [is_error=false]
    around the raw content, or [is_error=true] with the exception's string
    as content. *)
Definition envelope_as_specified (out : exn + json) (env : tool_result) : Prop :=
  match out with
  | inr c => tr_content env = RawContent c /\ is_error env = Some false
  | inl e => tr_content env = ErrorText e /\ is_error env = Some true
  end.

(** In the words of the specification: once a round requests no tool, no
    further model call is issued for the task. *)
Definition quiet_round_ends_model_calls (evs : list event) : Prop :=
  forall pre ev post,
    evs = (pre ++ ev :: post)%list ->
    is_quiet_round ev = true ->
    existsb is_create post = false.

(** In the words of the specification: the transcript starts with an
    assistant turn whose content is the summary, then the user query. *)
Definition starts_with_verbatim_summary (summary query : string)
  (transcript : list message) : Prop :=
  exists rest,
    transcript
    = mk_message assistant (Text summary) :: mk_message user (Text query) :: rest.

(** What a computation gave, without the world. *)
Definition outcome {E : Env} {A : Type} (r : result E A) : exn + A :=
  match r with
  | Ok a _ => inr a
  | Raise e _ => inl e
  end.

(** *** Further observations on traces and transcripts *)

Definition is_list_tools (ev : event) : bool :=
  match ev with EvListTools _ => true | _ => false end.

(** [answers bs evs envs]: the calls [evs] and the envelopes [envs] are, in
    order, those of the tool-invocation requests of the response [bs]:
    each request is called once with the name and arguments the model
    gave, and its envelope carries its id and reports that call. *)
Inductive answers : list block -> list event -> list tool_result -> Prop :=
| AnswersNil :
    answers [] [] []
| AnswersText (t : string) (bs : list block) (evs : list event)
    (envs : list tool_result) :
    answers bs evs envs -> answers (TextBlock t :: bs) evs envs
| AnswersOther (ty : string) (bs : list block) (evs : list event)
    (envs : list tool_result) :
    answers bs evs envs -> answers (OtherBlock ty :: bs) evs envs
| AnswersToolUse (id name : string) (args : json) (out : exn + json)
    (env : tool_result) (bs : list block) (evs : list event)
    (envs : list tool_result) :
    tool_use_id env = id ->
    envelope_as_built out env ->
    answers bs evs envs ->
    answers (ToolUseBlock id name args :: bs) (EvCallTool name args out :: evs)
      (env :: envs).

(** What the streaming variant would send next: the stored turns read
    through the heap. *)
Definition s_transcript (f : sframe) : list message :=
  map (deref (s_heap f)) (s_messages f).

(** Every stored assistant turn points into the heap. *)
Definition s_wf (f : sframe) : Prop :=
  Forall (fun t => match t with
                   | SAssistant l => l < length (s_heap f)
                   | _ => True
                   end) (s_messages f).

(** The turns a streaming round leaves for the response [bs]: per
    envelope, an assistant turn holding the whole response and a user turn
    holding that envelope alone. *)
Definition stream_turns (bs : list block) (envs : list tool_result) : list message :=
  flat_map (fun env => [mk_message assistant (Blocks bs);
                        mk_message user (ToolResults [env])]) envs.

(** The exception a summary response makes [compress] raise, if any. *)
Definition summary_failure (out : exn + list block) : option exn :=
  match out with
  | inl e => Some e
  | inr [] => Some "list index out of range"
  | inr (_ :: _) => None
  end.

Definition compressing_line : output :=
  Stdout (nl ++ "System: Compressing conversation context...").

Definition s_round_request (tools : list tool_param) (f : sframe) : request :=
  mk_request model_id 1000 (s_transcript f) (Some tools).

End Runs.

(* ================================================================= *)
(** ** Properties of the client *)

Module ClientFacts.
Import Client Runs.

Section Facts.
Context {E : Env}.

Lemma tool_use_ids_app (xs ys : list block) :
  tool_use_ids (xs ++ ys) = (tool_use_ids xs ++ tool_use_ids ys)%list.
Proof.
  induction xs as [|b xs IH]; simpl; [reflexivity|].
  destruct b; simpl; rewrite IH; reflexivity.
Qed.

(** What one call of the invoker does, by the outcome of the session
    call it makes. *)
Lemma invoke_tool_cases (id name : string) (args : json) (f : frame) (w : world E) :
  exists env x,
    invoke_tool id name args f w
    = Ok (append_result env
            (log_line (match fst (call_tool_oracle E name args (ext w)) with
                       | inr c => "✅ Tool result: " ++ str_json E c
                       | inl e => "❌ Tool error: " ++ e
                       end) f))
         (log_event (EvCallTool name args (fst (call_tool_oracle E name args (ext w)))) x w)
    /\ tool_use_id env = id
    /\ match fst (call_tool_oracle E name args (ext w)) with
       | inr c => tr_content env = RawContent c /\ is_error env = None
       | inl e => tr_content env = ErrorText ("Error: " ++ e) /\ is_error env = Some true
       end.
Proof.
  unfold invoke_tool, try_except, bind, session_call_tool, ret.
  destruct (call_tool_oracle E name args (ext w)) as [[e|c] x]; simpl;
    eexists; exists x; repeat split; reflexivity.
Qed.

Lemma for_each_cons {A S : Type} (body : A -> S -> M E S) (x : A) (xs : list A)
  (s : S) (w : world E) :
  for_each body (x :: xs) s w
  = match body x s w with
    | Ok s' w' => for_each body xs s' w'
    | Raise e w' => Raise e w'
    end.
Proof. reflexivity. Qed.

(** The inner [for] loop never raises; it adds one assistant turn per
    text segment and one envelope per tool-invocation request, in
    order, and calls nothing but tools. *)
Lemma for_each_content (bs : list block) :
  forall (f : frame) (w : world E),
  exists f' w' evs,
    for_each process_content bs f w = Ok f' w'
    /\ trace w' = (trace w ++ evs)%list
    /\ forallb is_call_tool evs = true
    /\ length evs = length (tool_use_ids bs)
    /\ console w' = console w
    /\ messages f' = (messages f ++ text_turns bs)%list
    /\ map tool_use_id (tool_results f')
       = (map tool_use_id (tool_results f) ++ tool_use_ids bs)%list
    /\ has_tool_calls f' = (has_tool_calls f || requests_tools bs)%bool
    /\ iteration f' = iteration f.
Proof.
  induction bs as [|b bs IH]; intros f w.
  - exists f, w, []. simpl. unfold ret. rewrite !app_nil_r, orb_false_r.
    repeat split; reflexivity.
  - destruct b as [t | id name args | ty].
    + destruct (IH (append_message (mk_message assistant (Text t))
                      (log_line ("Claude: " ++ t) f)) w)
        as (f' & w' & evs & Hrun & Htr & Hcalls & Hlen & Hcon & Hmsg & Hids & Hhas & Hit).
      exists f', w', evs. rewrite for_each_cons.
      cbn [process_content]. unfold ret at 1. rewrite Hrun.
      repeat split; try assumption.
      rewrite Hmsg. simpl. rewrite <- app_assoc. reflexivity.
    + destruct (invoke_tool_cases id name args
                  (log_line ("🔧 Calling tool '" ++ name ++ "' with args: "
                             ++ str_json E args) (set_has_tool_calls true f)) w)
        as (env & x & Hinv & Hid & _).
      match type of Hinv with _ = Ok ?g ?v =>
        destruct (IH g v)
          as (f' & w' & evs & Hrun & Htr & Hcalls & Hlen & Hcon & Hmsg & Hids & Hhas & Hit)
      end.
      eexists f', w', (_ :: evs). rewrite for_each_cons.
      cbn [process_content]. rewrite Hinv, Hrun.
      split; [reflexivity|].
      split; [rewrite Htr; simpl; rewrite <- app_assoc; reflexivity|].
      split; [exact Hcalls|].
      split; [simpl; rewrite Hlen; reflexivity|].
      split; [exact Hcon|].
      split; [exact Hmsg|].
      split; [|split; [|exact Hit]].
      * rewrite Hids. simpl. rewrite map_app, <- app_assoc. simpl.
        rewrite Hid. reflexivity.
      * rewrite Hhas. simpl. unfold requests_tools. simpl.
        rewrite orb_true_r. reflexivity.
    + destruct (IH f w)
        as (f' & w' & evs & Hrun & Htr & Hcalls & Hlen & Hcon & Hmsg & Hids & Hhas & Hit).
      exists f', w', evs. rewrite for_each_cons.
      cbn [process_content]. unfold ret at 1. rewrite Hrun.
      repeat split; assumption.
Qed.

Lemma round_cases (tools : list tool_param) (f : frame) (w : world E) :
  match create_oracle E (round_request tools f) (ext w) with
  | (inl e, x) =>
      round tools f w
      = Raise e (log_event (EvCreate (round_request tools f) (inl e)) x w)
  | (inr response, x) =>
      exists f' w' tevs,
        round tools f w = Ok f' w'
        /\ trace w' = (trace w ++ EvCreate (round_request tools f) (inr response) :: tevs)%list
        /\ console w' = console w
        /\ round_effect f response tevs f'
  end.
Proof.
  unfold round, bind, messages_create.
  change (round_request tools (incr_iteration f)) with (round_request tools f).
  destruct (create_oracle E (round_request tools f) (ext w)) as [[e|response] x].
  - reflexivity.
  - destruct (for_each_content response (begin_round (incr_iteration f))
                (log_event (EvCreate (round_request tools f) (inr response)) x w))
      as (f1 & w1 & tevs & Hrun & Htr & Hcalls & Hlen & Hcon & Hmsg & Hids & Hhas & Hit).
    rewrite Hrun. simpl in Hhas, Hids, Hmsg, Htr, Hit, Hcon.
    destruct (has_tool_calls f1) eqn:Hflag.
    + eexists _, w1, tevs. split; [reflexivity|].
      split; [rewrite Htr, <- app_assoc; reflexivity|].
      split; [exact Hcon|].
      constructor; simpl; try assumption.
      * rewrite Hflag. exact Hhas.
      * rewrite <- Hhas, Hmsg, <- !app_assoc. reflexivity.
    + exists f1, w1, tevs. unfold ret. split; [reflexivity|].
      split; [rewrite Htr, <- app_assoc; reflexivity|].
      split; [exact Hcon|].
      constructor; try assumption.
      * rewrite Hflag. exact Hhas.
      * rewrite <- Hhas, Hmsg, app_nil_r. reflexivity.
Qed.

(** Every run of the [while] is a [loop_run]. *)
Lemma turn_loop_run (tools : list tool_param) (n : nat) :
  forall (f : frame) (w : world E),
  exists evs,
    loop_run tools n f evs (outcome (turn_loop n tools f w))
    /\ trace (final_world (turn_loop n tools f w)) = (trace w ++ evs)%list
    /\ console (final_world (turn_loop n tools f w)) = console w.
Proof.
  induction n as [|n IH]; intros f w.
  - exists []. simpl. rewrite app_nil_r. repeat split. constructor.
  - cbn [turn_loop]. unfold bind.
    pose proof (round_cases tools f w) as Hround.
    destruct (create_oracle E (round_request tools f) (ext w)) as [[e|response] x].
    + rewrite Hround. simpl. eexists. repeat split. constructor.
    + destruct Hround as (f' & w' & tevs & Hrun & Htr & Hcon & Heff).
      rewrite Hrun.
      destruct (has_tool_calls f') eqn:Hflag.
      * destruct (IH f' w') as (evs & Hloop & Htr' & Hcon').
        exists (EvCreate (round_request tools f) (inr response) :: tevs ++ evs)%list.
        split; [|split].
        -- eapply LoopNext; eauto.
           rewrite <- (re_flag _ _ _ _ Heff). exact Hflag.
        -- rewrite Htr', Htr, <- app_assoc. reflexivity.
        -- rewrite Hcon', Hcon. reflexivity.
      * exists (EvCreate (round_request tools f) (inr response) :: tevs).
        unfold ret. simpl. split; [|split; assumption].
        apply LoopBreak; [|exact Heff].
        rewrite <- (re_flag _ _ _ _ Heff). exact Hflag.
Qed.

Lemma messages_note_ceiling (f : frame) : messages (note_ceiling f) = messages f.
Proof. unfold note_ceiling. destruct (max_iterations <=? iteration f)%nat; reflexivity. Qed.

Lemma iteration_note_ceiling (f : frame) : iteration (note_ceiling f) = iteration f.
Proof. unfold note_ceiling. destruct (max_iterations <=? iteration f)%nat; reflexivity. Qed.

Lemma has_tool_calls_note_ceiling (f : frame) :
  has_tool_calls (note_ceiling f) = has_tool_calls f.
Proof. unfold note_ceiling. destruct (max_iterations <=? iteration f)%nat; reflexivity. Qed.

(** The calls of [run_turns]: [list_tools], then a [loop_run]. *)
Lemma run_turns_cases (query : string) (ctx : option pyval) (w : world E) :
  match fst (list_tools_oracle E (ext w)) with
  | inl e =>
      outcome (run_turns query ctx w) = inl e
      /\ trace (final_world (run_turns query ctx w))
         = (trace w ++ [EvListTools (inl e)])%list
  | inr ts =>
      exists evs r,
        loop_run (map to_param ts) max_iterations (initial_frame query ctx) evs r
        /\ trace (final_world (run_turns query ctx w))
           = (trace w ++ EvListTools (inr ts) :: evs)%list
        /\ outcome (run_turns query ctx w)
           = match r with inl e => inl e | inr f => inr (note_ceiling f) end
  end
  /\ console (final_world (run_turns query ctx w)) = console w.
Proof.
  unfold run_turns, bind, session_list_tools.
  destruct (list_tools_oracle E (ext w)) as [[e|ts] x]; simpl fst.
  - simpl. repeat split.
  - rewrite Nat.sub_0_r.
    destruct (turn_loop_run (map to_param ts) max_iterations
                (initial_frame query ctx) (log_event (EvListTools (inr ts)) x w))
      as (evs & Hloop & Htr & Hcon).
    destruct (turn_loop max_iterations (map to_param ts) (initial_frame query ctx)
                (log_event (EvListTools (inr ts)) x w)) as [f w2|e w2];
      simpl in *.
    + split; [|exact Hcon]. exists evs, (inr f).
      split; [exact Hloop|]. split; [|reflexivity].
      rewrite Htr, <- app_assoc. reflexivity.
    + split; [|exact Hcon]. exists evs, (inl e).
      split; [exact Hloop|]. split; [|reflexivity].
      rewrite Htr, <- app_assoc. reflexivity.
Qed.

(** The compressor makes exactly one call, the summary request on the
    transcript it is given. *)
Lemma compress_cases (transcript : list message) (w : world E) :
  trace (final_world (compress transcript w))
  = (trace w ++ [EvCreate (summary_request transcript)
                   (fst (create_oracle E (summary_request transcript) (ext w)))])%list
  /\ outcome (compress transcript w)
     = match fst (create_oracle E (summary_request transcript) (ext w)) with
       | inl e => inl e
       | inr [] => inl "list index out of range"
       | inr (b :: _) => inr (PyBlock b)
       end.
Proof.
  unfold compress, bind, print, messages_create, first_block, ret, raise. simpl.
  destruct (create_oracle E (summary_request transcript) (ext w)) as [[e|[|b rest]] x];
    simpl; split; reflexivity.
Qed.

(** Every run of [process_query] is a [task_run]. *)
Lemma process_query_run (query : string) (ctx : option pyval) (w : world E) :
  exists evs,
    task_run query ctx evs (outcome (process_query query ctx w))
    /\ trace (final_world (process_query query ctx w)) = (trace w ++ evs)%list.
Proof.
  pose proof (run_turns_cases query ctx w) as [Hturns _].
  unfold process_query, bind.
  destruct (list_tools_oracle E (ext w)) as [[e|ts] x] eqn:Hlist; simpl fst in Hturns.
  - destruct Hturns as [Hout Htr].
    destruct (run_turns query ctx w) as [f w1|e' w1]; simpl in Hout, Htr; [discriminate|].
    injection Hout as ->. exists [EvListTools (inl e)]. simpl.
    split; [constructor | exact Htr].
  - destruct Hturns as (evs & r & Hloop & Htr & Hout).
    destruct (run_turns query ctx w) as [f w1|e' w1]; simpl in Hout, Htr.
    + destruct r as [e|f0]; [discriminate|]. injection Hout as ->.
      pose proof (compress_cases (messages (note_ceiling f0)) w1) as [Hctr Hcout].
      rewrite messages_note_ceiling in *.
      destruct (compress (messages f0) w1) as [v w2|e w2]; simpl in Hctr, Hcout.
      * destruct (fst (create_oracle E (summary_request (messages f0)) (ext w1)))
          as [e|[|b rest]] eqn:Hsum; try discriminate.
        injection Hcout as ->.
        exists (EvListTools (inr ts)
                  :: evs ++ [EvCreate (summary_request (messages f0)) (inr (b :: rest))])%list.
        unfold ret. simpl. split; [apply TaskDone; exact Hloop|].
        rewrite Hctr, Htr, <- app_assoc. reflexivity.
      * destruct (fst (create_oracle E (summary_request (messages f0)) (ext w1)))
          as [e0|[|b rest]] eqn:Hsum; try discriminate; injection Hcout as ->.
        -- exists (EvListTools (inr ts)
                     :: evs ++ [EvCreate (summary_request (messages f0)) (inl e0)])%list.
           simpl. split; [apply TaskSummaryFails; exact Hloop|].
           rewrite Hctr, Htr, <- app_assoc. reflexivity.
        -- exists (EvListTools (inr ts)
                     :: evs ++ [EvCreate (summary_request (messages f0)) (inr [])])%list.
           simpl. split; [apply TaskEmptySummary; exact Hloop|].
           rewrite Hctr, Htr, <- app_assoc. reflexivity.
    + destruct r as [e|f0]; [|discriminate]. injection Hout as ->.
      exists (EvListTools (inr ts) :: evs). simpl.
      split; [apply TaskLoopFails; exact Hloop | exact Htr].
Qed.

(* --------------------------------------------------------------- *)
(** *** Counting rounds *)

Lemma rounds_app (xs ys : list event) : rounds (xs ++ ys) = rounds xs + rounds ys.
Proof. unfold rounds. rewrite filter_app, length_app. reflexivity. Qed.

Lemma rounds_tool_events (tevs : list event) :
  forallb is_call_tool tevs = true -> rounds tevs = 0.
Proof.
  induction tevs as [|t tevs IH]; simpl; [reflexivity|].
  intros H. apply andb_true_iff in H as [Ht Hrest].
  destruct t; try discriminate. unfold rounds in *. simpl. auto.
Qed.

Lemma rounds_round_cons (tools : list tool_param) (f : frame)
  (out : exn + list block) (evs : list event) :
  rounds (EvCreate (round_request tools f) out :: evs) = S (rounds evs).
Proof. reflexivity. Qed.

(** The loop makes at most as many model calls as it has passes left;
    the counter at its exit counts them; and it can only exit with
    tool calls outstanding by using all its passes. *)
Lemma loop_run_rounds (tools : list tool_param) (n : nat) (f : frame)
  (evs : list event) (r : exn + frame) :
  loop_run tools n f evs r ->
  rounds evs <= n
  /\ (forall f', r = inr f' ->
        iteration f' = iteration f + rounds evs
        /\ (has_tool_calls f' = true -> rounds evs = n)).
Proof.
  induction 1 as [f | n f e | n f response tevs f' Hquiet Heff
                 | n f response tevs f' evs r Hbusy Heff Hrest IH].
  - split; [apply Nat.le_refl|]. intros f' [= <-].
    split; [unfold rounds; simpl; lia | reflexivity].
  - split; [unfold rounds; simpl; lia|]. discriminate.
  - rewrite rounds_round_cons, (rounds_tool_events _ (re_tools _ _ _ _ Heff)).
    split; [lia|]. intros f0 [= <-].
    rewrite (re_iteration _ _ _ _ Heff), (re_flag _ _ _ _ Heff), Hquiet.
    split; [lia | discriminate].
  - rewrite rounds_round_cons, rounds_app,
      (rounds_tool_events _ (re_tools _ _ _ _ Heff)).
    destruct IH as [Hle Hexit]. split; [simpl; lia|].
    intros f0 Hr. destruct (Hexit f0 Hr) as [Hit Hall].
    rewrite Hit, (re_iteration _ _ _ _ Heff). split; [simpl; lia|].
    intros Hflag. rewrite (Hall Hflag). reflexivity.
Qed.

(* --------------------------------------------------------------- *)
(** *** Where a given call sits in the trace *)

Lemma cons_split {A : Type} (x : A) (l pre : list A) (y : A) (post : list A) :
  x :: l = (pre ++ y :: post)%list ->
  (pre = [] /\ y = x /\ post = l)
  \/ (exists pre', pre = x :: pre' /\ l = (pre' ++ y :: post)%list).
Proof.
  destruct pre as [|p pre']; simpl; intros [= -> ->].
  - left. repeat split.
  - right. exists pre'. split; reflexivity.
Qed.

Lemma split_past (tevs evs pre : list event) (ev : event) (post : list event) :
  forallb is_call_tool tevs = true ->
  is_call_tool ev = false ->
  (tevs ++ evs = pre ++ ev :: post)%list ->
  exists pre', pre = (tevs ++ pre')%list /\ evs = (pre' ++ ev :: post)%list.
Proof.
  revert pre. induction tevs as [|t tevs IH]; intros pre Hall Hev Heq.
  - exists pre. split; [reflexivity | exact Heq].
  - simpl in Hall. apply andb_true_iff in Hall as [Ht Hall].
    simpl in Heq. apply cons_split in Heq as [(-> & -> & _) | (pre1 & -> & Heq)].
    + congruence.
    + destruct (IH pre1 Hall Hev Heq) as (pre' & -> & ->).
      exists pre'. split; reflexivity.
Qed.

Lemma quiet_is_not_tool (ev : event) : is_quiet_round ev = true -> is_call_tool ev = false.
Proof. destruct ev; simpl; congruence. Qed.

Lemma fatal_is_not_tool (ev : event) : is_fatal ev = true -> is_call_tool ev = false.
Proof. destruct ev; simpl; congruence. Qed.

Lemma create_is_not_tool (ev : event) : is_create ev = true -> is_call_tool ev = false.
Proof. destruct ev; simpl; congruence. Qed.

(** A round without tool-invocation requests is the last call of the
    loop, which exits with the transcript of that round. *)
Lemma loop_run_quiet_last (tools : list tool_param) (n : nat) (f : frame)
  (evs : list event) (r : exn + frame) :
  loop_run tools n f evs r ->
  forall pre ev post,
    evs = (pre ++ ev :: post)%list ->
    is_quiet_round ev = true ->
    post = []
    /\ exists f', r = inr f' /\ has_tool_calls f' = false
                  /\ messages f' = transcript_after ev.
Proof.
  induction 1 as [f | n f e | n f response tevs f' Hquiet Heff
                 | n f response tevs f' evs r Hbusy Heff Hrest IH];
    intros pre ev post Heq Hev.
  - destruct pre; discriminate.
  - apply cons_split in Heq as [(-> & -> & ->) | (pre1 & -> & Heq)].
    + discriminate.
    + destruct pre1; discriminate.
  - assert (Hnone : tevs = []).
    { pose proof (re_count _ _ _ _ Heff) as Hlen. unfold requests_tools in Hquiet.
      destruct (tool_use_ids response); [|discriminate].
      destruct tevs; [reflexivity | discriminate]. }
    subst tevs.
    apply cons_split in Heq as [(-> & -> & ->) | (pre1 & -> & Heq)].
    + split; [reflexivity|]. exists f'. split; [reflexivity|].
      split; [rewrite (re_flag _ _ _ _ Heff); exact Hquiet|].
      rewrite (re_messages _ _ _ _ Heff), Hquiet, app_nil_r. reflexivity.
    + destruct pre1; discriminate.
  - apply cons_split in Heq as [(-> & -> & ->) | (pre1 & -> & Heq)].
    + simpl in Hev. unfold requests_tools in Hbusy.
      destruct (tool_use_ids response); discriminate.
    + apply split_past in Heq as (pre2 & -> & ->);
        [| exact (re_tools _ _ _ _ Heff) | apply quiet_is_not_tool; exact Hev].
      eapply IH; [reflexivity | exact Hev].
Qed.

(** A failed model call is the last call of the loop, which it leaves
    by raising that failure. *)
Lemma loop_run_fatal_last (tools : list tool_param) (n : nat) (f : frame)
  (evs : list event) (r : exn + frame) :
  loop_run tools n f evs r ->
  forall pre ev post,
    evs = (pre ++ ev :: post)%list ->
    is_fatal ev = true ->
    post = [] /\ exists req e, ev = EvCreate req (inl e) /\ r = inl e.
Proof.
  induction 1 as [f | n f e | n f response tevs f' Hquiet Heff
                 | n f response tevs f' evs r Hbusy Heff Hrest IH];
    intros pre ev post Heq Hev.
  - destruct pre; discriminate.
  - apply cons_split in Heq as [(-> & -> & ->) | (pre1 & -> & Heq)].
    + split; [reflexivity|]. eexists _, e. split; reflexivity.
    + destruct pre1; discriminate.
  - apply cons_split in Heq as [(-> & -> & ->) | (pre1 & -> & Heq)].
    + discriminate.
    + exfalso.
      assert (Hin : In ev tevs) by (rewrite Heq; apply in_elt).
      pose proof (proj1 (forallb_forall _ _) (re_tools _ _ _ _ Heff) ev Hin).
      pose proof (fatal_is_not_tool ev Hev). congruence.
  - apply cons_split in Heq as [(-> & -> & ->) | (pre1 & -> & Heq)].
    + discriminate.
    + apply split_past in Heq as (pre2 & -> & ->);
        [| exact (re_tools _ _ _ _ Heff) | apply fatal_is_not_tool; exact Hev].
      eapply IH; [reflexivity | exact Hev].
Qed.

(** A loop left by an exception made the failed model call. *)
Lemma loop_run_raise (tools : list tool_param) (n : nat) (f : frame)
  (evs : list event) (e : exn) :
  loop_run tools n f evs (inl e) ->
  exists pre req, evs = (pre ++ [EvCreate req (inl e)])%list.
Proof.
  remember (inl e : exn + frame) as r eqn:Hr.
  induction 1 as [f | n f e0 | n f response tevs f' Hquiet Heff
                 | n f response tevs f' evs r Hbusy Heff Hrest IH];
    try discriminate.
  - injection Hr as ->. exists [], (round_request tools f). reflexivity.
  - destruct (IH Hr) as (pre & req & ->).
    exists (EvCreate (round_request tools f) (inr response) :: tevs ++ pre)%list, req.
    simpl. rewrite <- app_assoc. reflexivity.
Qed.

(** The transcript only grows: every request of the loop starts with
    the transcript the loop started from. *)
Lemma loop_run_prefix (tools : list tool_param) (n : nat) (f : frame)
  (evs : list event) (r : exn + frame) :
  loop_run tools n f evs r ->
  (forall req out, In (EvCreate req out) evs ->
     exists rest, req_messages req = (messages f ++ rest)%list)
  /\ (forall f', r = inr f' -> exists rest, messages f' = (messages f ++ rest)%list).
Proof.
  induction 1 as [f | n f e | n f response tevs f' Hquiet Heff
                 | n f response tevs f' evs r Hbusy Heff Hrest IH].
  - split; [intros ? ? []|]. intros f' [= <-]. exists []. rewrite app_nil_r. reflexivity.
  - split; [|discriminate]. intros req out [[= <- <-]|[]].
    exists []. simpl. rewrite app_nil_r. reflexivity.
  - split.
    + intros req out [[= <- <-]|Hin].
      * exists []. simpl. rewrite app_nil_r. reflexivity.
      * pose proof (proj1 (forallb_forall _ _) (re_tools _ _ _ _ Heff) _ Hin).
        discriminate.
    + intros f0 [= <-]. rewrite (re_messages _ _ _ _ Heff). eexists. reflexivity.
  - destruct IH as [IHreq IHexit].
    assert (Hgrow : exists rest, messages f' = (messages f ++ rest)%list)
      by (rewrite (re_messages _ _ _ _ Heff); eexists; reflexivity).
    destruct Hgrow as (grown & Hgrow). split.
    + intros req out [[= <- <-]|Hin].
      * exists []. simpl. rewrite app_nil_r. reflexivity.
      * apply in_app_or in Hin as [Hin|Hin].
        -- pose proof (proj1 (forallb_forall _ _) (re_tools _ _ _ _ Heff) _ Hin).
           discriminate.
        -- destruct (IHreq req out Hin) as (rest & ->). rewrite Hgrow.
           exists (grown ++ rest)%list. rewrite app_assoc. reflexivity.
    + intros f0 Hr. destruct (IHexit f0 Hr) as (rest & ->). rewrite Hgrow.
      exists (grown ++ rest)%list. rewrite app_assoc. reflexivity.
Qed.

(* --------------------------------------------------------------- *)
(** *** The round and the invoker *)

Lemma text_turns_are_text (bs : list block) :
  Forall (fun m => exists t, m = mk_message assistant (Text t)) (text_turns bs).
Proof.
  induction bs as [|b bs IH]; simpl; [constructor|].
  destruct b; try assumption. constructor; [eexists; reflexivity | assumption].
Qed.

(** C1.  A round of the non-streaming loop whose response holds N >= 1
    tool-invocation requests does not raise; it produces exactly N
    envelopes, the [tool_use_id] of each being the id of its request, in
    order; and the transcript at the end of the round is the transcript
    before it, then one assistant text turn per text segment, then one
    assistant turn holding the raw content-block list, then one user
    turn holding all N envelopes. *)
Theorem round_groups_tool_results (tools : list tool_param) (f : frame) (w : world E)
  (response : list block) (x : W E) :
  create_oracle E (round_request tools f) (ext w) = (inr response, x) ->
  1 <= length (tool_use_ids response) ->
  exists f' w',
    round tools f w = Ok f' w'
    /\ length (tool_results f') = length (tool_use_ids response)
    /\ map tool_use_id (tool_results f') = tool_use_ids response
    /\ messages f'
       = (messages f ++ text_turns response
          ++ [mk_message assistant (Blocks response);
              mk_message user (ToolResults (tool_results f'))])%list
    /\ Forall (fun m => exists t, m = mk_message assistant (Text t))
         (text_turns response).
Proof.
  intros Hresp HN.
  pose proof (round_cases tools f w) as Hround. rewrite Hresp in Hround.
  destruct Hround as (f' & w' & tevs & Hrun & _ & _ & Heff).
  exists f', w'. split; [exact Hrun|].
  assert (Hbusy : requests_tools response = true).
  { unfold requests_tools. destruct (tool_use_ids response); [simpl in HN; lia | reflexivity]. }
  split; [|split; [|split]].
  - rewrite <- (re_ids _ _ _ _ Heff), length_map. reflexivity.
  - exact (re_ids _ _ _ _ Heff).
  - rewrite (re_messages _ _ _ _ Heff), Hbusy. reflexivity.
  - apply text_turns_are_text.
Qed.

(** C4, as the code has it.  The invoker never raises.  It adds exactly
    one envelope, carrying the id of the request: when the session call
    returns, the raw result content, with no [is_error] key in the
    dict; when the session call raises, [is_error = True] and the
    content [Error: ] followed by the exception's string.  The
    transcript is not touched. *)
Theorem invoke_tool_envelope (id name : string) (args : json) (f : frame) (w : world E) :
  exists f' w' env,
    invoke_tool id name args f w = Ok f' w'
    /\ tool_results f' = (tool_results f ++ [env])%list
    /\ messages f' = messages f
    /\ tool_use_id env = id
    /\ envelope_as_built (fst (call_tool_oracle E name args (ext w))) env.
Proof.
  destruct (invoke_tool_cases id name args f w) as (env & x & Hinv & Hid & Hshape).
  eexists _, _, env. split; [exact Hinv|].
  repeat split; try reflexivity; try exact Hid.
  unfold envelope_as_built.
  destruct (fst (call_tool_oracle E name args (ext w))); exact Hshape.
Qed.

(* --------------------------------------------------------------- *)
(** *** Whole tasks *)

Lemma snoc_split {A : Type} (l : list A) (s : A) (pre : list A) (y : A)
  (post : list A) :
  (l ++ [s] = pre ++ y :: post)%list ->
  (post = [] /\ y = s /\ pre = l)
  \/ (exists post', post = (post' ++ [s])%list /\ l = (pre ++ y :: post')%list).
Proof.
  intros Heq. destruct post as [|p post] using rev_ind.
  - apply app_inj_tail in Heq as [-> ->]. left. repeat split.
  - clear IHpost. right. exists post.
    change (pre ++ y :: post ++ [p])%list with (pre ++ (y :: post) ++ [p])%list in Heq.
    rewrite app_assoc in Heq. apply app_inj_tail in Heq as [-> ->].
    split; reflexivity.
Qed.

Lemma task_run_quiet (query : string) (ctx : option pyval) (evs : list event)
  (r : exn + string * pyval) :
  task_run query ctx evs r ->
  forall pre ev post,
    evs = (pre ++ ev :: post)%list ->
    is_quiet_round ev = true ->
    exists out, post = [EvCreate (summary_request (transcript_after ev)) out].
Proof.
  intros Hrun pre ev post Heq Hev.
  assert (Hsummary :
    forall ts levs f out,
      loop_run (map to_param ts) max_iterations (initial_frame query ctx) levs (inr f) ->
      evs = (EvListTools (inr ts) :: levs ++ [EvCreate (summary_request (messages f)) out])%list ->
      post = [EvCreate (summary_request (transcript_after ev)) out]).
  { intros ts levs f out Hloop ->.
    apply cons_split in Heq as [(-> & -> & _) | (pre1 & -> & Heq)]; [discriminate|].
    apply snoc_split in Heq as [(-> & -> & _) | (post' & -> & ->)];
      [destruct out; discriminate|].
    destruct (loop_run_quiet_last _ _ _ _ _ Hloop _ _ _ eq_refl Hev)
      as (-> & f' & [= <-] & _ & Hmsg).
    rewrite Hmsg. reflexivity. }
  destruct Hrun as [e | ts levs e Hloop | ts levs f e Hloop | ts levs f Hloop
                   | ts levs f b rest Hloop].
  - apply cons_split in Heq as [(-> & -> & _) | (pre1 & -> & Heq)]; [discriminate|].
    destruct pre1; discriminate.
  - apply cons_split in Heq as [(-> & -> & _) | (pre1 & -> & ->)]; [discriminate|].
    destruct (loop_run_quiet_last _ _ _ _ _ Hloop _ _ _ eq_refl Hev)
      as (_ & f' & Hr & _). discriminate.
  - eexists. eapply Hsummary; [exact Hloop | reflexivity].
  - eexists. eapply Hsummary; [exact Hloop | reflexivity].
  - eexists. eapply Hsummary; [exact Hloop | reflexivity].
Qed.

Lemma task_run_fatal (query : string) (ctx : option pyval) (evs : list event)
  (r : exn + string * pyval) :
  task_run query ctx evs r ->
  forall pre ev post,
    evs = (pre ++ ev :: post)%list ->
    is_fatal ev = true ->
    post = [] /\ exists e, failure ev = Some e /\ r = inl e.
Proof.
  intros Hrun pre ev post Heq Hev.
  assert (Hsummary :
    forall ts levs f out,
      loop_run (map to_param ts) max_iterations (initial_frame query ctx) levs (inr f) ->
      evs = (EvListTools (inr ts) :: levs ++ [EvCreate (summary_request (messages f)) out])%list ->
      post = [] /\ ev = EvCreate (summary_request (messages f)) out).
  { intros ts levs f out Hloop ->.
    apply cons_split in Heq as [(-> & -> & _) | (pre1 & -> & Heq)]; [discriminate|].
    apply snoc_split in Heq as [(-> & -> & _) | (post' & -> & ->)];
      [split; reflexivity|].
    destruct (loop_run_fatal_last _ _ _ _ _ Hloop _ _ _ eq_refl Hev)
      as (_ & req & e & _ & Hr). discriminate. }
  destruct Hrun as [e | ts levs e Hloop | ts levs f e Hloop | ts levs f Hloop
                   | ts levs f b rest Hloop].
  - apply cons_split in Heq as [(-> & -> & ->) | (pre1 & -> & Heq)].
    + split; [reflexivity|]. exists e. split; reflexivity.
    + destruct pre1; discriminate.
  - apply cons_split in Heq as [(-> & -> & _) | (pre1 & -> & ->)]; [discriminate|].
    destruct (loop_run_fatal_last _ _ _ _ _ Hloop _ _ _ eq_refl Hev)
      as (-> & req & e' & -> & [= ->]).
    split; [reflexivity|]. exists e'. split; reflexivity.
  - destruct (Hsummary _ _ _ _ Hloop eq_refl) as [-> ->].
    split; [reflexivity|]. exists e. split; reflexivity.
  - destruct (Hsummary _ _ _ _ Hloop eq_refl) as [_ ->]. discriminate.
  - destruct (Hsummary _ _ _ _ Hloop eq_refl) as [_ ->]. discriminate.
Qed.

Lemma rounds_summary (transcript : list message) (out : exn + list block) :
  rounds [EvCreate (summary_request transcript) out] = 0.
Proof. reflexivity. Qed.

Lemma task_run_rounds (query : string) (ctx : option pyval) (evs : list event)
  (r : exn + string * pyval) :
  task_run query ctx evs r -> rounds evs <= max_iterations.
Proof.
  assert (Hcons : forall out l, rounds (EvListTools out :: l) = rounds l) by reflexivity.
  destruct 1 as [e | ts levs e Hloop | ts levs f e Hloop | ts levs f Hloop
                | ts levs f b rest Hloop];
    rewrite Hcons; try rewrite rounds_app, rounds_summary, Nat.add_0_r;
    try (apply (loop_run_rounds _ _ _ _ _ Hloop)).
  unfold rounds. simpl. lia.
Qed.

Lemma task_run_prefix (query : string) (ctx : option pyval) (evs : list event)
  (r : exn + string * pyval) :
  task_run query ctx evs r ->
  forall req out, In (EvCreate req out) evs ->
    exists rest, req_messages req = (initial_messages query ctx ++ rest)%list.
Proof.
  intros Hrun req out Hin.
  assert (Hloop_case :
    forall ts levs r0,
      loop_run (map to_param ts) max_iterations (initial_frame query ctx) levs r0 ->
      In (EvCreate req out) levs ->
      exists rest, req_messages req = (initial_messages query ctx ++ rest)%list).
  { intros ts levs r0 Hloop Hin'.
    exact (proj1 (loop_run_prefix _ _ _ _ _ Hloop) req out Hin'). }
  assert (Hsum_case :
    forall ts levs f out0,
      loop_run (map to_param ts) max_iterations (initial_frame query ctx) levs (inr f) ->
      In (EvCreate req out)
         (EvListTools (inr ts) :: levs ++ [EvCreate (summary_request (messages f)) out0]) ->
      exists rest, req_messages req = (initial_messages query ctx ++ rest)%list).
  { intros ts levs f out0 Hloop [Hhd|Hin']; [discriminate|].
    apply in_app_or in Hin' as [Hin'|[[= <- <-]|[]]].
    - eapply Hloop_case; eassumption.
    - destruct (proj2 (loop_run_prefix _ _ _ _ _ Hloop) f eq_refl) as (rest & Hrest).
      simpl. rewrite Hrest. exists (rest ++ [summary_prompt])%list.
      rewrite app_assoc. reflexivity. }
  destruct Hrun as [e | ts levs e Hloop | ts levs f e Hloop | ts levs f Hloop
                   | ts levs f b rest Hloop].
  - destruct Hin as [|[]]; discriminate.
  - destruct Hin as [|Hin]; [discriminate|]. eapply Hloop_case; eassumption.
  - eapply Hsum_case; eassumption.
  - eapply Hsum_case; eassumption.
  - eapply Hsum_case; eassumption.
Qed.

(* --------------------------------------------------------------- *)
(** *** End of the loop, ceiling, summary *)

Lemma quiet_round_inv (ev : event) :
  is_quiet_round ev = true ->
  exists req response,
    ev = EvCreate req (inr response) /\ tool_use_ids response = [].
Proof.
  destruct ev as [o | req [e|response] | name args o]; try discriminate.
  simpl. destruct (req_tools req); [|discriminate].
  destruct (tool_use_ids response) eqn:Hids; [|discriminate].
  intros _. exists req, response. split; [reflexivity | exact Hids].
Qed.

(** C2, as the code has it.  When a round of a task receives a response
    without tool-invocation requests, the turn loop ends with that
    round: no further round follows, and exactly one call follows in the
    task, the summary request of the compressor.  That request names the
    model, has 200 as token limit and no tools, and its messages are the
    messages of that round's request, then the assistant turns of the
    round's text segments, then the summary prompt: no other turn was
    appended to the transcript. *)
Theorem quiet_round_ends_turn_loop (query : string) (ctx : option pyval) (w : world E)
  (pre : list event) (ev : event) (post : list event) :
  trace (final_world (process_query query ctx w)) = (trace w ++ pre ++ ev :: post)%list ->
  is_quiet_round ev = true ->
  rounds post = 0
  /\ exists req response out,
       ev = EvCreate req (inr response)
       /\ tool_use_ids response = []
       /\ post
          = [EvCreate
               (mk_request "claude-3-5-sonnet-20241022" 200
                  (req_messages req ++ text_turns response
                   ++ [mk_message user (Text "Please provide a brief summary of the conversation so far. Make sure to prioritize the user's goals, actions taken, and any important data like document keys that will be important for the continuation of work. List the most recent actions first")])
                  None) out].
Proof.
  intros Htr Hev.
  destruct (process_query_run query ctx w) as (evs & Hrun & Hevs).
  rewrite Hevs in Htr. apply app_inv_head in Htr.
  destruct (task_run_quiet _ _ _ _ Hrun _ _ _ Htr Hev) as (out & ->).
  split; [reflexivity|].
  destruct (quiet_round_inv ev Hev) as (req & response & -> & Hids).
  exists req, response, out. split; [reflexivity|]. split; [exact Hids|].
  unfold summary_request, transcript_after, summary_prompt, model_id.
  rewrite <- app_assoc. reflexivity.
Qed.

Lemma run_turns_exit (query : string) (ctx : option pyval) (w : world E)
  (f : frame) (w1 : world E) :
  run_turns query ctx w = Ok f w1 ->
  exists ts evs f0,
    loop_run (map to_param ts) max_iterations (initial_frame query ctx) evs (inr f0)
    /\ f = note_ceiling f0
    /\ trace w1 = (trace w ++ EvListTools (inr ts) :: evs)%list.
Proof.
  intros Hrun. pose proof (run_turns_cases query ctx w) as [Hcases _].
  rewrite Hrun in Hcases. simpl in Hcases.
  destruct (fst (list_tools_oracle E (ext w))) as [e|ts].
  - destruct Hcases as [Hout _]. discriminate.
  - destruct Hcases as (evs & r & Hloop & Htr & Hout).
    destruct r as [e|f0]; [discriminate|]. injection Hout as ->.
    exists ts, evs, f0. repeat split; assumption.
Qed.

Lemma note_ceiling_at_maximum (f : frame) :
  iteration f = max_iterations ->
  execution_log (note_ceiling f) = (execution_log f ++ [ceiling_notice])%list.
Proof. unfold note_ceiling. intros ->. reflexivity. Qed.

Lemma process_query_after_turns (query : string) (ctx : option pyval) (w : world E)
  (f : frame) (w1 : world E) :
  run_turns query ctx w = Ok f w1 ->
  exists out,
    trace (final_world (process_query query ctx w))
    = (trace w1 ++ [EvCreate (summary_request (messages f)) out])%list.
Proof.
  intros Hrun. unfold process_query, bind. rewrite Hrun.
  pose proof (compress_cases (messages f) w1) as [Hctr _].
  eexists. rewrite <- Hctr.
  destruct (compress (messages f) w1); reflexivity.
Qed.

(** The loop left with tool calls outstanding: its transcript is the one
    of its last round, tool results included. *)
Lemma loop_run_busy_exit (tools : list tool_param) (n : nat) (f : frame)
  (evs : list event) (r : exn + frame) :
  loop_run tools n f evs r ->
  forall f', r = inr f' ->
  0 < n ->
  has_tool_calls f' = true ->
  exists pre req response tevs,
    evs = (pre ++ EvCreate req (inr response) :: tevs)%list
    /\ forallb is_call_tool tevs = true
    /\ map tool_use_id (tool_results f') = tool_use_ids response
    /\ messages f'
       = (req_messages req ++ text_turns response
          ++ [mk_message assistant (Blocks response);
              mk_message user (ToolResults (tool_results f'))])%list.
Proof.
  induction 1 as [f | n f e | n f response tevs f' Hquiet Heff
                 | n f response tevs f' evs r Hbusy Heff Hrest IH];
    intros f0 Hr Hn Hflag.
  - lia.
  - discriminate.
  - injection Hr as <-. rewrite (re_flag _ _ _ _ Heff), Hquiet in Hflag. discriminate.
  - destruct n as [|n].
    + assert (Hend : evs = [] /\ r = inr f') by (inversion Hrest; split; reflexivity).
      destruct Hend as [-> ->]. injection Hr as <-.
      exists [], (round_request tools f), response, tevs.
      split; [rewrite app_nil_r; reflexivity|].
      split; [exact (re_tools _ _ _ _ Heff)|].
      split; [exact (re_ids _ _ _ _ Heff)|].
      rewrite (re_messages _ _ _ _ Heff), Hbusy. reflexivity.
    + destruct (IH f0 Hr (Nat.lt_0_succ n) Hflag)
        as (pre & req & resp & tevs' & -> & Htools & Hids & Hmsg).
      exists (EvCreate (round_request tools f) (inr response) :: tevs ++ pre)%list,
        req, resp, tevs'.
      split; [simpl; rewrite <- app_assoc; reflexivity|].
      repeat split; assumption.
Qed.

(** C3.  The ceiling is 20.  No task makes more than 20 rounds (model
    calls of the turn loop).  When the loop is left with tool calls
    outstanding, it has made exactly 20 rounds, the counter is 20 and the
    ceiling notice closes the execution log.  The transcript at that
    point starts with the turns the task began with and is the one of the
    last round: the messages of its request, the turns of its text
    segments, the assistant turn with its raw content and the user turn
    with its tool results.  The next call is the summary request (same
    model, token limit 200, no tools) whose messages are that transcript
    followed by the summary prompt. *)
Theorem rounds_bounded_and_summary_runs (query : string) (ctx : option pyval)
  (w : world E) :
  max_iterations = 20
  /\ (exists evs,
        trace (final_world (process_query query ctx w)) = (trace w ++ evs)%list
        /\ rounds evs <= max_iterations)
  /\ (forall f w1,
        run_turns query ctx w = Ok f w1 ->
        has_tool_calls f = true ->
        iteration f = max_iterations
        /\ (exists tevs, trace w1 = (trace w ++ tevs)%list
                         /\ rounds tevs = max_iterations)
        /\ (exists log, execution_log f = (log ++ [ceiling_notice])%list)
        /\ (exists out,
              trace (final_world (process_query query ctx w))
              = (trace w1 ++ [EvCreate (summary_request (messages f)) out])%list)
        /\ (exists rest, messages f = (initial_messages query ctx ++ rest)%list)
        /\ (exists pre req response calls,
              trace w1 = (trace w ++ pre ++ EvCreate req (inr response) :: calls)%list
              /\ forallb is_call_tool calls = true
              /\ map tool_use_id (tool_results f) = tool_use_ids response
              /\ messages f
                 = (req_messages req ++ text_turns response
                    ++ [mk_message assistant (Blocks response);
                        mk_message user (ToolResults (tool_results f))])%list)
        /\ exists out,
             trace (final_world (process_query query ctx w))
             = (trace w1
                ++ [EvCreate
                      (mk_request "claude-3-5-sonnet-20241022" 200
                         (messages f ++ [mk_message user (Text "Please provide a brief summary of the conversation so far. Make sure to prioritize the user's goals, actions taken, and any important data like document keys that will be important for the continuation of work. List the most recent actions first")])
                         None) out])%list).
Proof.
  split; [reflexivity|]. split.
  - destruct (process_query_run query ctx w) as (evs & Hrun & Hevs).
    exists evs. split; [exact Hevs | exact (task_run_rounds _ _ _ _ Hrun)].
  - intros f w1 Hrun Hflag.
    destruct (run_turns_exit _ _ _ _ _ Hrun) as (ts & evs & f0 & Hloop & -> & Htr).
    rewrite has_tool_calls_note_ceiling in Hflag.
    destruct (loop_run_rounds _ _ _ _ _ Hloop) as [_ Hexit].
    destruct (Hexit f0 eq_refl) as [Hit Hall]. specialize (Hall Hflag).
    rewrite Hall in Hit. simpl in Hit.
    split; [rewrite iteration_note_ceiling; exact Hit|].
    split; [exists (EvListTools (inr ts) :: evs); split; [exact Htr | exact Hall]|].
    split; [exists (execution_log f0); apply note_ceiling_at_maximum; exact Hit|].
    split; [exact (process_query_after_turns _ _ _ _ _ Hrun)|].
    split.
    { rewrite messages_note_ceiling.
      exact (proj2 (loop_run_prefix _ _ _ _ _ Hloop) f0 eq_refl). }
    split.
    { assert (Hpos : 0 < max_iterations) by (unfold max_iterations; lia).
      destruct (loop_run_busy_exit _ _ _ _ _ Hloop f0 eq_refl Hpos Hflag)
        as (pre & req & response & calls & -> & Htools & Hids & Hmsg).
      exists (EvListTools (inr ts) :: pre), req, response, calls.
      rewrite messages_note_ceiling.
      assert (Hres : tool_results (note_ceiling f0) = tool_results f0)
        by (unfold note_ceiling; destruct (max_iterations <=? iteration f0)%nat; reflexivity).
      rewrite Hres. split; [exact Htr|]. repeat split; assumption. }
    destruct (process_query_after_turns _ _ _ _ _ Hrun) as (out & Hout).
    exists out. exact Hout.
Qed.

(** C10.  The counter at the exit of the loop is the number of rounds
    made; whenever that number is the maximum, the ceiling notice is
    the last line of the execution log, whether or not the last round
    requested tools. *)
Theorem ceiling_notice_at_maximum (query : string) (ctx : option pyval) (w : world E)
  (f : frame) (w1 : world E) (evs : list event) :
  run_turns query ctx w = Ok f w1 ->
  trace w1 = (trace w ++ evs)%list ->
  rounds evs = max_iterations ->
  iteration f = max_iterations
  /\ exists log, execution_log f = (log ++ [ceiling_notice])%list.
Proof.
  intros Hrun Htr Hrounds.
  destruct (run_turns_exit _ _ _ _ _ Hrun) as (ts & levs & f0 & Hloop & -> & Htr').
  rewrite Htr' in Htr. apply app_inv_head in Htr. subst evs.
  change (rounds (EvListTools (inr ts) :: levs)) with (rounds levs) in Hrounds.
  destruct (loop_run_rounds _ _ _ _ _ Hloop) as [_ Hexit].
  destruct (Hexit f0 eq_refl) as [Hit _]. rewrite Hrounds in Hit. simpl in Hit.
  split; [rewrite iteration_note_ceiling; exact Hit|].
  exists (execution_log f0). apply note_ceiling_at_maximum. exact Hit.
Qed.

(* --------------------------------------------------------------- *)
(** *** The streaming variant *)

Lemma tool_events_harmless (tevs : list event) :
  forallb is_call_tool tevs = true -> forallb harmless tevs = true.
Proof.
  induction tevs as [|t tevs IH]; simpl; [reflexivity|].
  intros H. apply andb_true_iff in H as [Ht Hrest].
  rewrite (IH Hrest). destruct t; try discriminate. reflexivity.
Qed.

Lemma s_for_each_content (bs : list block) :
  forall (f : sframe) (w : world E),
  exists f' w' evs,
    for_each s_process_content bs f w = Ok f' w'
    /\ trace w' = (trace w ++ evs)%list
    /\ forallb is_call_tool evs = true.
Proof.
  induction bs as [|b bs IH]; intros f w.
  - exists f, w, []. simpl. unfold ret. rewrite app_nil_r. repeat split.
  - rewrite for_each_cons.
    destruct b as [t | id name args | ty]; cbn [s_process_content].
    + unfold bind, print, ret.
      destruct (IH (grow_content (TextBlock t) f) (emit (Stdout ("Claude: " ++ t)) w))
        as (f' & w' & evs & Hrun & Htr & Hcalls).
      rewrite Hrun. exists f', w', evs. repeat split; assumption.
    + unfold bind, print, try_except, session_call_tool, ret. cbn [ext emit].
      destruct (call_tool_oracle E name args (ext w)) as [[e|c] x].
      * match goal with |- context [for_each s_process_content bs ?g ?v] =>
          destruct (IH g v) as (f' & w' & evs & Hrun & Htr & Hcalls) end.
        rewrite Hrun. eexists f', w', (_ :: evs). split; [reflexivity|].
        split; [rewrite Htr; simpl; rewrite <- app_assoc; reflexivity | exact Hcalls].
      * match goal with |- context [for_each s_process_content bs ?g ?v] =>
          destruct (IH g v) as (f' & w' & evs & Hrun & Htr & Hcalls) end.
        rewrite Hrun. eexists f', w', (_ :: evs). split; [reflexivity|].
        split; [rewrite Htr; simpl; rewrite <- app_assoc; reflexivity | exact Hcalls].
    + unfold ret.
      destruct (IH (grow_content (OtherBlock ty) f) w)
        as (f' & w' & evs & Hrun & Htr & Hcalls).
      rewrite Hrun. exists f', w', evs. repeat split; assumption.
Qed.

Lemma s_round_shape (tools : list tool_param) (f : sframe) (w : world E) :
  exists evs,
    trace (final_world (s_round tools f w)) = (trace w ++ evs)%list
    /\ stream_shape evs (outcome (s_round tools f w)).
Proof.
  unfold s_round, bind, print, messages_create. cbn [ext emit trace].
  match goal with |- context [create_oracle E ?r (ext w)] =>
    destruct (create_oracle E r (ext w)) as [[e|response] x] eqn:Hreq end.
  - eexists [_]. split; [reflexivity|]. simpl.
    eexists [], _. repeat split.
  - match goal with |- context [for_each s_process_content response ?g ?v] =>
      destruct (s_for_each_content response g v) as (f' & w' & evs & Hrun & Htr & Hcalls)
    end.
    rewrite Hrun. exists (EvCreate
               (mk_request model_id 1000
                  (map (deref (s_heap (s_incr_iteration f))) (s_messages (s_incr_iteration f)))
                  (Some tools)) (inr response) :: evs).
    assert (Hshape : forallb harmless
              (EvCreate
                 (mk_request model_id 1000
                    (map (deref (s_heap (s_incr_iteration f)))
                       (s_messages (s_incr_iteration f)))
                    (Some tools)) (inr response) :: evs) = true)
      by (simpl; apply tool_events_harmless; exact Hcalls).
    destruct (negb (s_has_tool_calls f')); unfold ret; simpl.
    + split; [|exact Hshape]. rewrite Htr. simpl. rewrite <- app_assoc. reflexivity.
    + split; [|exact Hshape]. rewrite Htr. simpl. rewrite <- app_assoc. reflexivity.
Qed.

Lemma stream_shape_extend {A B : Type} (evs1 evs2 : list event) (r : exn + B) :
  forallb harmless evs1 = true ->
  stream_shape evs2 r ->
  stream_shape (A := B) (evs1 ++ evs2) r.
Proof.
  intros H1 H2. destruct r as [e|b]; simpl in *.
  - destruct H2 as (pre & last & -> & Hpre & Hfatal & Hfail & Hsum).
    exists (evs1 ++ pre)%list, last. rewrite app_assoc, forallb_app, H1, Hpre.
    repeat split; assumption.
  - rewrite forallb_app, H1, H2. reflexivity.
Qed.

Lemma s_turn_loop_shape (tools : list tool_param) (n : nat) :
  forall (f : sframe) (w : world E),
  exists evs,
    trace (final_world (s_turn_loop n tools f w)) = (trace w ++ evs)%list
    /\ stream_shape evs (outcome (s_turn_loop n tools f w)).
Proof.
  induction n as [|n IH]; intros f w.
  - exists []. simpl. rewrite app_nil_r. split; reflexivity.
  - cbn [s_turn_loop]. unfold bind.
    destruct (s_round_shape tools f w) as (evs & Htr & Hshape).
    destruct (s_round tools f w) as [f' w'|e w']; simpl in Htr, Hshape.
    + destruct (s_has_tool_calls f').
      * destruct (IH f' w') as (evs' & Htr' & Hshape').
        exists (evs ++ evs')%list. split.
        -- rewrite Htr', Htr, app_assoc. reflexivity.
        -- apply (stream_shape_extend (A := sframe)); assumption.
      * exists evs. unfold ret. simpl. split; assumption.
    + exists evs. simpl. split; assumption.
Qed.

Lemma streaming_shape (query : string) (w : world E) :
  exists evs,
    trace (final_world (process_query_with_streaming query w)) = (trace w ++ evs)%list
    /\ stream_shape evs (outcome (process_query_with_streaming query w)).
Proof.
  unfold process_query_with_streaming, bind, session_list_tools, print.
  destruct (list_tools_oracle E (ext w)) as [[e|ts] x].
  - exists [EvListTools (inl e)]. simpl. split; [reflexivity|].
    exists [], (EvListTools (inl e)). repeat split.
  - cbn [ext emit].
    match goal with |- context [s_turn_loop ?n ?t ?g ?v] =>
      destruct (s_turn_loop_shape t n g v) as (evs & Htr & Hshape);
      destruct (s_turn_loop n t g v) as [f' w'|e w'] end;
      simpl in Htr, Hshape.
    + exists (EvListTools (inr ts) :: evs). split.
      * destruct (max_iterations <=? s_iteration f')%nat; unfold ret; simpl;
          rewrite Htr, <- app_assoc; reflexivity.
      * destruct (max_iterations <=? s_iteration f')%nat; unfold ret; simpl;
          exact Hshape.
    + exists (EvListTools (inr ts) :: evs). simpl. split.
      * rewrite Htr, <- app_assoc. reflexivity.
      * destruct Hshape as (pre & last & -> & Hpre & Hrest).
        exists (EvListTools (inr ts) :: pre), last. simpl. rewrite Hpre.
        split; [reflexivity|]. split; [reflexivity|]. exact Hrest.
Qed.

Lemma stream_shape_fatal {A : Type} (evs : list event) (r : exn + A) :
  stream_shape evs r ->
  forall pre ev post,
    evs = (pre ++ ev :: post)%list ->
    is_fatal ev = true ->
    post = [] /\ exists e, failure ev = Some e /\ r = inl e.
Proof.
  intros Hshape pre ev post Heq Hev.
  assert (Hnot : forall l, forallb harmless l = true -> In ev l -> False).
  { intros l Hl Hin. pose proof (proj1 (forallb_forall _ _) Hl ev Hin) as Hh.
    unfold harmless in Hh. rewrite Hev in Hh. discriminate. }
  destruct r as [e|a]; simpl in Hshape.
  - destruct Hshape as (pre0 & last & -> & Hpre & Hfatal & Hfail & _).
    apply snoc_split in Heq as [(-> & -> & _) | (post' & -> & ->)].
    + split; [reflexivity|]. exists e. split; [exact Hfail | reflexivity].
    + exfalso. apply (Hnot _ Hpre). apply in_elt.
  - exfalso. apply (Hnot _ Hshape). rewrite Heq. apply in_elt.
Qed.

Lemma stream_shape_no_summary {A : Type} (evs : list event) (r : exn + A) :
  stream_shape evs r -> no_summary_call evs.
Proof.
  assert (Hharm : forall l, forallb harmless l = true -> no_summary_call l).
  { unfold no_summary_call. induction l as [|x l IH]; simpl; [reflexivity|].
    intros H. apply andb_true_iff in H as [Hx Hl]. rewrite (IH Hl).
    unfold harmless in Hx. apply andb_true_iff in Hx as [_ ->]. reflexivity. }
  intros Hshape. destruct r as [e|a]; simpl in Hshape; [|exact (Hharm _ Hshape)].
  destruct Hshape as (pre & last & -> & Hpre & _ & _ & Hsum).
  unfold no_summary_call. rewrite forallb_app. rewrite (Hharm _ Hpre). simpl.
  rewrite Hsum. reflexivity.
Qed.

(* --------------------------------------------------------------- *)
(** *** The shell *)

(** The body of an iteration whose input is not a shell command. *)
Lemma chat_body_task (st : shell) (line : string) (w : world E) :
  is_command (strip line) = false ->
  chat_body st line w
  = if streaming_mode st then
      match process_query_with_streaming (strip line) (emit (Stdout (prompt st)) w) with
      | Ok _ w1 => Ok (Continue st) w1
      | Raise e w1 => Raise e w1
      end
    else
      match process_query (strip line) (Some (context st)) (emit (Stdout (prompt st)) w) with
      | Ok (response, new_context) w1 =>
          Ok (Continue (mk_shell new_context (streaming_mode st)))
             (emit (Stdout (nl ++ response)) w1)
      | Raise e w1 => Raise e w1
      end.
Proof.
  unfold is_command. intros Hcmd.
  apply orb_false_iff in Hcmd as [Hcmd Hreset].
  apply orb_false_iff in Hcmd as [Hcmd Hcontext].
  apply orb_false_iff in Hcmd as [Hquit Hstream].
  unfold chat_body. unfold bind at 1. unfold print at 1. cbv beta iota zeta.
  rewrite Hquit, Hstream, Hcontext, Hreset.
  destruct (streaming_mode st); unfold bind, print, ret.
  - destruct (process_query_with_streaming (strip line) (emit (Stdout (prompt st)) w));
      reflexivity.
  - destruct (process_query (strip line) (Some (context st))
                (emit (Stdout (prompt st)) w)) as [[response new_context] w1|e w1];
      reflexivity.
Qed.

(** What an iteration of the shell does with a task, by the way the
    task ends. *)
Lemma chat_step_task (st : shell) (line : string) (w : world E) :
  is_command (strip line) = false ->
  let w0 := emit (Stdout (prompt st)) w in
  if streaming_mode st then
    let r := process_query_with_streaming (strip line) w0 in
    trace (snd (chat_step st line w)) = trace (final_world r)
    /\ fst (chat_step st line w) = Continue st
    /\ forall e, outcome r = inl e ->
         snd (chat_step st line w)
         = emit (Traceback e) (emit (Stdout (nl ++ "Error: " ++ e)) (final_world r))
  else
    let r := process_query (strip line) (Some (context st)) w0 in
    trace (snd (chat_step st line w)) = trace (final_world r)
    /\ (forall e, outcome r = inl e ->
          chat_step st line w
          = (Continue st,
             emit (Traceback e) (emit (Stdout (nl ++ "Error: " ++ e)) (final_world r))))
    /\ (forall response new_context, outcome r = inr (response, new_context) ->
          fst (chat_step st line w) = Continue (mk_shell new_context false)).
Proof.
  intros Hcmd w0. unfold chat_step. rewrite (chat_body_task st line w Hcmd).
  fold w0. destruct (streaming_mode st) eqn:Hmode; cbv zeta.
  - destruct (process_query_with_streaming (strip line) w0) as [v w1|e w1]; simpl.
    + repeat split. discriminate.
    + repeat split. intros e' [= ->]. reflexivity.
  - destruct (process_query (strip line) (Some (context st)) w0)
      as [[response new_context] w1|e w1]; simpl.
    + repeat split; [discriminate|]. intros r' c' [= -> ->]. reflexivity.
    + repeat split; [|discriminate]. intros e' [= ->]. reflexivity.
Qed.

(** C6.  A task run in streaming mode leaves the shell's locals as they
    were, the stored carry-over value among them, however the task
    ends; and among the calls it makes there is no summary request. *)
Theorem streaming_task_keeps_context (st : shell) (line : string) (w : world E) :
  streaming_mode st = true ->
  is_command (strip line) = false ->
  fst (chat_step st line w) = Continue st
  /\ exists evs,
       trace (snd (chat_step st line w)) = (trace w ++ evs)%list
       /\ no_summary_call evs.
Proof.
  intros Hmode Hcmd. pose proof (chat_step_task st line w Hcmd) as Hstep.
  rewrite Hmode in Hstep. cbv zeta in Hstep. destruct Hstep as (Htr & Hctl & _).
  split; [exact Hctl|].
  destruct (streaming_shape (strip line) (emit (Stdout (prompt st)) w))
    as (evs & Hevs & Hshape).
  exists evs. split; [rewrite Htr; exact Hevs|].
  exact (stream_shape_no_summary _ _ Hshape).
Qed.

(** C7.  When a call of [list_tools] or of the model fails during a
    task, in either mode, no call follows it in that task (nothing is
    retried); the exception reaches the shell, which prints it with a
    traceback and goes on to the next input line with the same locals,
    the stored carry-over value among them. *)
Theorem failed_call_reaches_shell (st : shell) (line : string) (w : world E)
  (pre : list event) (ev : event) (post : list event) :
  is_command (strip line) = false ->
  trace (snd (chat_step st line w)) = (trace w ++ pre ++ ev :: post)%list ->
  is_fatal ev = true ->
  post = []
  /\ fst (chat_step st line w) = Continue st
  /\ (exists e shown,
        failure ev = Some e
        /\ console (snd (chat_step st line w))
           = (shown ++ [Stdout (nl ++ "Error: " ++ e); Traceback e])%list)
  /\ forall rest, serve (line :: rest) st w = serve rest st (snd (chat_step st line w)).
Proof.
  intros Hcmd Htr Hev. pose proof (chat_step_task st line w Hcmd) as Hstep.
  assert (Hgoal :
    post = []
    /\ fst (chat_step st line w) = Continue st
    /\ exists e shown,
         failure ev = Some e
         /\ console (snd (chat_step st line w))
            = (shown ++ [Stdout (nl ++ "Error: " ++ e); Traceback e])%list).
  { destruct (streaming_mode st); cbv zeta in Hstep.
    - destruct Hstep as (Hsame & Hctl & Hraise).
      destruct (streaming_shape (strip line) (emit (Stdout (prompt st)) w))
        as (evs & Hevs & Hshape).
      rewrite Hsame, Hevs in Htr. apply app_inv_head in Htr.
      destruct (stream_shape_fatal _ _ Hshape _ _ _ Htr Hev) as (-> & e & Hfail & Hout).
      split; [reflexivity|]. split; [exact Hctl|].
      exists e. eexists. split; [exact Hfail|].
      rewrite (Hraise e Hout). simpl. rewrite <- app_assoc. reflexivity.
    - destruct Hstep as (Hsame & Hraise & _).
      destruct (process_query_run (strip line) (Some (context st))
                  (emit (Stdout (prompt st)) w)) as (evs & Hrun & Hevs).
      rewrite Hsame, Hevs in Htr. apply app_inv_head in Htr.
      destruct (task_run_fatal _ _ _ _ Hrun _ _ _ Htr Hev) as (-> & e & Hfail & Hout).
      split; [reflexivity|]. rewrite (Hraise e Hout).
      split; [reflexivity|].
      exists e. eexists. split; [exact Hfail|].
      simpl. rewrite <- app_assoc. reflexivity. }
  destruct Hgoal as (Hpost & Hctl & Hshown).
  repeat split; try assumption.
  intros rest. cbn [serve].
  destruct (chat_step st line w) as [c w']. simpl in Hctl. subst c. reflexivity.
Qed.

(** C5, as the code has it.  In a non-streaming task started while the
    stored carry-over value is truthy, every request sent to the model
    (the first one included) starts with an assistant turn whose
    content is the text [Previous conversation context: ] followed by
    the rendering of that value, and then the user turn holding the
    query. *)
Theorem carryover_opens_next_transcript (st : shell) (line : string) (w : world E)
  (evs : list event) (req : request) (out : exn + list block) :
  streaming_mode st = false ->
  is_command (strip line) = false ->
  truthy (Some (context st)) = true ->
  trace (snd (chat_step st line w)) = (trace w ++ evs)%list ->
  In (EvCreate req out) evs ->
  exists rest,
    req_messages req
    = mk_message assistant
        (Text ("Previous conversation context: " ++ py_str (context st)))
      :: mk_message user (Text (strip line)) :: rest.
Proof.
  intros Hmode Hcmd Htruthy Htr Hin.
  pose proof (chat_step_task st line w Hcmd) as Hstep.
  rewrite Hmode in Hstep. cbv zeta in Hstep. destruct Hstep as (Hsame & _ & _).
  destruct (process_query_run (strip line) (Some (context st))
              (emit (Stdout (prompt st)) w)) as (evs' & Hrun & Hevs).
  rewrite Hsame, Hevs in Htr. apply app_inv_head in Htr. subst evs'.
  destruct (task_run_prefix _ _ _ _ Hrun req out Hin) as (rest & Hreq).
  exists rest. rewrite Hreq. unfold initial_messages. rewrite Htruthy. reflexivity.
Qed.

End Facts.

(** A round with a text segment and two requests, the second for a tool
    the session does not know. *)
Lemma round_groups_tool_results_witness :
  exists f' w',
    round (E := Demo.online) [] Demo.empty_frame
      (Demo.start _ [inr [TextBlock "on it"; Demo.use "toolu_1" "add_title";
                          Demo.use "toolu_2" "no_such_tool"]])
    = Ok f' w'
    /\ length (tool_results f') = 2
    /\ map tool_use_id (tool_results f') = ["toolu_1"; "toolu_2"]
    /\ messages f'
       = [mk_message assistant (Text "on it");
          mk_message assistant
            (Blocks [TextBlock "on it"; Demo.use "toolu_1" "add_title";
                     Demo.use "toolu_2" "no_such_tool"]);
          mk_message user (ToolResults (tool_results f'))]
    /\ Forall (fun m => exists t, m = mk_message assistant (Text t))
         [mk_message assistant (Text "on it")].
Proof.
  apply (round_groups_tool_results (E := Demo.online) [] Demo.empty_frame
           (Demo.start _ [inr [TextBlock "on it"; Demo.use "toolu_1" "add_title";
                               Demo.use "toolu_2" "no_such_tool"]])
           [TextBlock "on it"; Demo.use "toolu_1" "add_title";
            Demo.use "toolu_2" "no_such_tool"] []).
  - reflexivity.
  - simpl. lia.
Defined.

(** The session raises [Unknown tool: no_such_tool]; the envelope's
    content is not that string. *)
Lemma invoke_tool_counterexample :
  exists f' w' env,
    invoke_tool (E := Demo.online) "toolu_1" "no_such_tool" (JObj []) Demo.empty_frame
      (Demo.start _ [])
    = Ok f' w'
    /\ tool_results f' = [env]
    /\ fst (call_tool_oracle Demo.online "no_such_tool" (JObj []) [])
       = inl "Unknown tool: no_such_tool"
    /\ ~ envelope_as_specified (inl "Unknown tool: no_such_tool") env.
Proof.
  eexists _, _, _. split; [reflexivity|]. split; [reflexivity|].
  split; [reflexivity|]. intros [Hcontent _]. discriminate Hcontent.
Qed.

(** The task of [Demo.quiet_task]: [list_tools], a round answered with
    plain text, the summary request. *)
Lemma quiet_round_ends_turn_loop_witness :
  rounds (skipn 2 Demo.quiet_trace) = 0
  /\ exists req response out,
       nth 1 Demo.quiet_trace (EvListTools (inr [])) = EvCreate req (inr response)
       /\ tool_use_ids response = []
       /\ skipn 2 Demo.quiet_trace
          = [EvCreate
               (mk_request "claude-3-5-sonnet-20241022" 200
                  (req_messages req ++ text_turns response
                   ++ [mk_message user (Text "Please provide a brief summary of the conversation so far. Make sure to prioritize the user's goals, actions taken, and any important data like document keys that will be important for the continuation of work. List the most recent actions first")])
                  None) out].
Proof.
  apply (quiet_round_ends_turn_loop (E := Demo.online) "hello" (Some sentinel)
           (Demo.start _ [inr [TextBlock "hi"]; inr [TextBlock "S"]])
           (firstn 1 Demo.quiet_trace)
           (nth 1 Demo.quiet_trace (EvListTools (inr [])))
           (skipn 2 Demo.quiet_trace)).
  - vm_compute. reflexivity.
  - vm_compute. reflexivity.
Defined.

(** In that task a model call, the summary request, follows the round
    that requested no tool. *)
Lemma quiet_round_counterexample :
  is_quiet_round (nth 1 Demo.quiet_trace (EvListTools (inr []))) = true
  /\ map is_create Demo.quiet_trace = [false; true; true]
  /\ ~ quiet_round_ends_model_calls Demo.quiet_trace.
Proof.
  split; [vm_compute; reflexivity|]. split; [vm_compute; reflexivity|].
  intros Hclaim.
  specialize (Hclaim (firstn 1 Demo.quiet_trace)
                (nth 1 Demo.quiet_trace (EvListTools (inr [])))
                (skipn 2 Demo.quiet_trace)).
  assert (Hfalse : true = false)
    by (apply Hclaim; vm_compute; reflexivity).
  discriminate Hfalse.
Qed.

(** Twenty-five tool-requesting responses are on offer; the loop stops
    after twenty. *)
Lemma rounds_bounded_and_summary_runs_witness :
  iteration (Demo.frame_of Demo.ceiling_turns) = 20
  /\ (exists tevs,
        trace (final_world Demo.ceiling_turns) = (trace Demo.ceiling_world ++ tevs)%list
        /\ rounds tevs = 20)
  /\ (exists log,
        execution_log (Demo.frame_of Demo.ceiling_turns) = (log ++ [ceiling_notice])%list)
  /\ (exists out,
        trace (final_world (process_query (E := Demo.online) "loop" None Demo.ceiling_world))
        = (trace (final_world Demo.ceiling_turns)
           ++ [EvCreate (summary_request (messages (Demo.frame_of Demo.ceiling_turns))) out])%list)
  /\ (exists rest,
        messages (Demo.frame_of Demo.ceiling_turns)
        = (initial_messages (E := Demo.online) "loop" None ++ rest)%list)
  /\ (exists pre req response calls,
        trace (final_world Demo.ceiling_turns)
        = (trace Demo.ceiling_world ++ pre ++ EvCreate req (inr response) :: calls)%list
        /\ forallb is_call_tool calls = true
        /\ map tool_use_id (tool_results (Demo.frame_of Demo.ceiling_turns))
           = tool_use_ids response
        /\ messages (Demo.frame_of Demo.ceiling_turns)
           = (req_messages req ++ text_turns response
              ++ [mk_message assistant (Blocks response);
                  mk_message user
                    (ToolResults (tool_results (Demo.frame_of Demo.ceiling_turns)))])%list)
  /\ exists out,
       trace (final_world (process_query (E := Demo.online) "loop" None Demo.ceiling_world))
       = (trace (final_world Demo.ceiling_turns)
          ++ [EvCreate
                (mk_request "claude-3-5-sonnet-20241022" 200
                   (messages (Demo.frame_of Demo.ceiling_turns)
                    ++ [mk_message user (Text "Please provide a brief summary of the conversation so far. Make sure to prioritize the user's goals, actions taken, and any important data like document keys that will be important for the continuation of work. List the most recent actions first")])
                   None) out])%list.
Proof.
  apply (proj2 (proj2 (rounds_bounded_and_summary_runs (E := Demo.online) "loop" None
                         Demo.ceiling_world))
           (Demo.frame_of Demo.ceiling_turns) (final_world Demo.ceiling_turns)).
  - vm_compute. reflexivity.
  - vm_compute. reflexivity.
Defined.

(** Round 20 answers with plain text: the task completed by itself, and
    the notice is logged all the same. *)
Lemma ceiling_notice_at_maximum_witness :
  has_tool_calls (Demo.frame_of Demo.late_quiet_turns) = false
  /\ iteration (Demo.frame_of Demo.late_quiet_turns) = max_iterations
  /\ exists log,
       execution_log (Demo.frame_of Demo.late_quiet_turns) = (log ++ [ceiling_notice])%list.
Proof.
  split; [vm_compute; reflexivity|].
  apply (ceiling_notice_at_maximum (E := Demo.online) "work" None Demo.late_quiet_world
           (Demo.frame_of Demo.late_quiet_turns) (final_world Demo.late_quiet_turns)
           (trace (final_world Demo.late_quiet_turns))).
  - vm_compute. reflexivity.
  - vm_compute. reflexivity.
  - vm_compute. reflexivity.
Defined.

(** A streaming task with one tool call. *)
Lemma streaming_task_keeps_context_witness :
  fst (chat_step Demo.streaming_shell "add a title" Demo.streaming_world)
  = Continue Demo.streaming_shell
  /\ exists evs,
       trace (snd (chat_step Demo.streaming_shell "add a title" Demo.streaming_world))
       = (trace Demo.streaming_world ++ evs)%list
       /\ no_summary_call evs.
Proof.
  apply (streaming_task_keeps_context (E := Demo.online) Demo.streaming_shell
           "add a title" Demo.streaming_world).
  - reflexivity.
  - vm_compute. reflexivity.
Defined.

(** The session is down: [list_tools] raises. *)
Lemma failed_call_reaches_shell_witness :
  @nil event = []
  /\ fst (chat_step Demo.plain_shell "hello" Demo.offline_world) = Continue Demo.plain_shell
  /\ (exists e shown,
        failure (EvListTools (inl "Connection closed")) = Some e
        /\ console (snd (chat_step Demo.plain_shell "hello" Demo.offline_world))
           = (shown ++ [Stdout (nl ++ "Error: " ++ e); Traceback e])%list)
  /\ forall rest,
       serve ("hello" :: rest) Demo.plain_shell Demo.offline_world
       = serve rest Demo.plain_shell
           (snd (chat_step Demo.plain_shell "hello" Demo.offline_world)).
Proof.
  apply (failed_call_reaches_shell (E := Demo.offline) Demo.plain_shell "hello"
           Demo.offline_world [] (EvListTools (inl "Connection closed")) []).
  - vm_compute. reflexivity.
  - vm_compute. reflexivity.
  - reflexivity.
Defined.

(** The second of two tasks, started with the value the first one left. *)
Lemma carryover_opens_next_transcript_witness :
  exists rest,
    Demo.second_transcript
    = mk_message assistant
        (Text ("Previous conversation context: "
               ++ py_str (E := Demo.online) (context Demo.shell_after_first)))
      :: mk_message user (Text (strip "second")) :: rest.
Proof.
  apply (carryover_opens_next_transcript (E := Demo.online) Demo.shell_after_first
           "second" (snd Demo.after_first)
           (skipn 3 (trace (snd Demo.after_second)))
           (mk_request model_id 1000 Demo.second_transcript
              (Some [to_param Demo.title_tool]))
           (inr [TextBlock "ok"])).
  - vm_compute. reflexivity.
  - vm_compute. reflexivity.
  - vm_compute. reflexivity.
  - vm_compute. reflexivity.
  - vm_compute. right. left. reflexivity.
Defined.

(** The first task is summarised as [S1]; what it hands over is the
    content block, and the turn that opens the second transcript is not
    the text [S1]. *)
Lemma carryover_counterexample :
  context Demo.shell_after_first = PyBlock (TextBlock "S1")
  /\ hd_error Demo.second_transcript
     = Some (mk_message assistant (Text "Previous conversation context: S1"))
  /\ ~ starts_with_verbatim_summary "S1" "second" Demo.second_transcript.
Proof.
  split; [vm_compute; reflexivity|]. split; [vm_compute; reflexivity|].
  intros [rest Hclaim]. vm_compute in Hclaim. discriminate Hclaim.
Qed.

End ClientFacts.

(* ================================================================= *)
(** ** Properties of the document server *)

Module DoclingFacts.
Import Docling.

Section Facts.
Context {G : Engine}.

(** C8, as the code has it.  For a request whose body decodes to a
    JSON object: with a [document] key whose value the document model
    accepts, the route answers 200 with the confirmation message and
    the validated document replaces the shared one; with a [document]
    key whose value the model rejects, the validation error leaves the
    handler and the shared state is as before; without a [document]
    key, the route answers 400 with the error payload and changes
    nothing. *)
Theorem upload_document_on_objects (fields : list (string * json)) (s : shared G) :
  upload_document (inr (JObj fields)) s
  = match lookup "document" fields with
    | Some d =>
        match model_validate G d with
        | inr doc =>
            (inr (mk_JSONResponse (Message "Document uploaded successfully.") 200),
             mk_shared (Some doc) (stack_cache s))
        | inl e => (inl e, s)
        end
    | None =>
        (inr (mk_JSONResponse (Error "No document provided in the request.") 400), s)
    end.
Proof.
  unfold upload_document, py_in, py_getitem.
  destruct (lookup "document" fields) as [d|]; [|reflexivity].
  destruct (model_validate G d); reflexivity.
Qed.

(** With a document loaded, [close_list_in_docling_document] rejects the
    empty stack and nothing else. *)
Lemma close_list_rejects_only_empty (s : shared G) (doc : Doc G) :
  document s = Some doc ->
  close_list_in_docling_document s
  = match stack_cache s with
    | [] => (inl stack_size_zero, s)
    | _ :: _ =>
        (inr (export_to_dict G doc), mk_shared (Some doc) (removelast (stack_cache s)))
    end.
Proof.
  intros Hdoc. destruct s as [d st]. simpl in Hdoc. subst d.
  destruct st as [|x st]; reflexivity.
Qed.

(** C9.  With a document loaded and exactly one item on the stack,
    [close_list_in_docling_document] succeeds and leaves the stack
    empty; from that state each of the six document-mutating tools
    raises the stack-size-zero error, whatever its arguments, and
    changes nothing. *)
Theorem close_list_on_single_item (s : shared G) (doc : Doc G) (item : NodeItem) :
  document s = Some doc ->
  stack_cache s = [item] ->
  let s' := mk_shared (Some doc) [] in
  close_list_in_docling_document s = (inr (export_to_dict G doc), s')
  /\ (forall title,
        add_title_to_docling_document title s' = (inl stack_size_zero, s'))
  /\ (forall heading level,
        add_section_heading_to_docling_document heading level s'
        = (inl stack_size_zero, s'))
  /\ (forall paragraph,
        add_paragraph_to_docling_document paragraph s' = (inl stack_size_zero, s'))
  /\ open_list_in_docling_document s' = (inl stack_size_zero, s')
  /\ (forall items,
        add_list_items_to_list_in_docling_document items s' = (inl stack_size_zero, s'))
  /\ (forall html captions footnotes,
        add_table_in_html_format_to_docling_document html captions footnotes s'
        = (inl stack_size_zero, s')).
Proof.
  intros Hdoc Hstack s'. destruct s as [d st]. simpl in Hdoc, Hstack. subst d st.
  repeat split.
Qed.

End Facts.

Lemma close_list_on_single_item_witness :
  let s' := mk_shared (G := Demo.engine) (Some ["text prompt"]) [] in
  close_list_in_docling_document Demo.one_item
  = (inr (export_to_dict Demo.engine ["text prompt"]), s')
  /\ (forall title,
        add_title_to_docling_document title s' = (inl stack_size_zero, s'))
  /\ (forall heading level,
        add_section_heading_to_docling_document heading level s'
        = (inl stack_size_zero, s'))
  /\ (forall paragraph,
        add_paragraph_to_docling_document paragraph s' = (inl stack_size_zero, s'))
  /\ open_list_in_docling_document s' = (inl stack_size_zero, s')
  /\ (forall items,
        add_list_items_to_list_in_docling_document items s' = (inl stack_size_zero, s'))
  /\ (forall html captions footnotes,
        add_table_in_html_format_to_docling_document html captions footnotes s'
        = (inl stack_size_zero, s')).
Proof.
  apply (close_list_on_single_item (G := Demo.engine) Demo.one_item ["text prompt"]
           (DocItem "#/texts")).
  - reflexivity.
  - reflexivity.
Defined.

(** A body with a [document] field that is no document is not answered
    with 200, and a body that is a bare number is not answered with 400:
    both requests leave the handler by an exception. *)
Lemma upload_document_counterexample :
  upload_document (G := Demo.engine) (inr (JObj [("document", JNum 42)])) Demo.no_document
  = (inl "1 validation error for DoclingDocument", Demo.no_document)
  /\ ~ upload_as_specified (JObj [("document", JNum 42)])
       (fst (upload_document (G := Demo.engine) (inr (JObj [("document", JNum 42)]))
               Demo.no_document))
  /\ ~ upload_as_specified (JNum 5)
       (fst (upload_document (G := Demo.engine) (inr (JNum 5)) Demo.no_document)).
Proof.
  split; [reflexivity|]. split.
  - intros [confirmation Hclaim]. discriminate Hclaim.
  - intros [payload Hclaim]. discriminate Hclaim.
Qed.

End DoclingFacts.


(* ================================================================= *)
(** ** Further properties of the client *)

Module ClientExtras.
Import Client Runs ClientFacts.

Section Facts.
Context {E : Env}.

(* ----------------------------------------------------------------- *)
(** *** Requests, calls and envelopes of a round *)

Lemma for_each_answers (bs : list block) :
  forall (f : frame) (w : world E),
  exists f' w' evs envs,
    for_each process_content bs f w = Ok f' w'
    /\ trace w' = (trace w ++ evs)%list
    /\ tool_results f' = (tool_results f ++ envs)%list
    /\ answers bs evs envs.
Proof.
  induction bs as [|b bs IH]; intros f w.
  - exists f, w, [], []. simpl. unfold ret. rewrite !app_nil_r.
    repeat split. constructor.
  - rewrite for_each_cons. destruct b as [t | id name args | ty]; cbn [process_content].
    + unfold ret at 1.
      destruct (IH (append_message (mk_message assistant (Text t))
                      (log_line ("Claude: " ++ t) f)) w)
        as (f' & w' & evs & envs & Hrun & Htr & Hres & Hans).
      exists f', w', evs, envs. repeat split; try assumption. constructor. exact Hans.
    + destruct (invoke_tool_cases id name args
                  (log_line ("🔧 Calling tool '" ++ name ++ "' with args: "
                             ++ str_json E args) (set_has_tool_calls true f)) w)
        as (env & x & Hinv & Hid & Hshape).
      rewrite Hinv.
      match type of Hinv with _ = Ok ?g ?v =>
        destruct (IH g v) as (f' & w' & evs & envs & Hrun & Htr & Hres & Hans)
      end.
      exists f', w',
        (EvCallTool name args (fst (call_tool_oracle E name args (ext w))) :: evs),
        (env :: envs).
      split; [exact Hrun|].
      split; [rewrite Htr; simpl; rewrite <- app_assoc; reflexivity|].
      split; [rewrite Hres; simpl; rewrite <- app_assoc; reflexivity|].
      constructor; [exact Hid | | exact Hans].
      unfold envelope_as_built.
      destruct (fst (call_tool_oracle E name args (ext w))); exact Hshape.
    + unfold ret at 1.
      destruct (IH f w) as (f' & w' & evs & envs & Hrun & Htr & Hres & Hans).
      exists f', w', evs, envs. repeat split; try assumption. constructor. exact Hans.
Qed.

(** X1.  In a round that gets a response, the calls made after the model
    call are exactly the tool calls of the response's requests, one per
    request, in the order of the response, with the name and arguments of
    the request; every call is made whatever the earlier ones did; and the
    envelopes of the round are, in the same order, the reports of those
    calls under the ids of their requests. *)
Theorem round_answers_every_request (tools : list tool_param) (f : frame) (w : world E)
  (response : list block) (x : W E) :
  create_oracle E (round_request tools f) (ext w) = (inr response, x) ->
  exists f' w' tevs,
    round tools f w = Ok f' w'
    /\ trace w' = (trace w ++ EvCreate (round_request tools f) (inr response) :: tevs)%list
    /\ answers response tevs (tool_results f').
Proof.
  intros Hresp. unfold round, bind, messages_create.
  change (round_request tools (incr_iteration f)) with (round_request tools f).
  rewrite Hresp.
  destruct (for_each_answers response (begin_round (incr_iteration f))
              (log_event (EvCreate (round_request tools f) (inr response)) x w))
    as (f1 & w1 & tevs & envs & Hrun & Htr & Hres & Hans).
  rewrite Hrun. simpl in Htr, Hres. subst envs.
  destruct (has_tool_calls f1).
  - eexists _, w1, tevs. split; [reflexivity|].
    split; [rewrite Htr, <- app_assoc; reflexivity | exact Hans].
  - exists f1, w1, tevs. unfold ret. split; [reflexivity|].
    split; [rewrite Htr, <- app_assoc; reflexivity | exact Hans].
Qed.

(* ----------------------------------------------------------------- *)
(** *** What a task asks of the session and of the model *)

Lemma loop_run_requests (tools : list tool_param) (n : nat) (f : frame)
  (evs : list event) (r : exn + frame) :
  loop_run tools n f evs r ->
  Forall (fun ev =>
            is_list_tools ev = false
            /\ forall req out, ev = EvCreate req out ->
                 req_model req = model_id /\ req_max_tokens req = 1000
                 /\ req_tools req = Some tools) evs.
Proof.
  assert (Htools : forall tevs, forallb is_call_tool tevs = true ->
            Forall (fun ev =>
                      is_list_tools ev = false
                      /\ forall req out, ev = EvCreate req out ->
                           req_model req = model_id /\ req_max_tokens req = 1000
                           /\ req_tools req = Some tools) tevs).
  { induction tevs as [|t tevs IH]; simpl; intros H; constructor.
    - apply andb_true_iff in H as [Ht _]. destruct t; try discriminate.
      split; [reflexivity|]. intros req out' Heq. discriminate Heq.
    - apply andb_true_iff in H as [_ Hrest]. exact (IH Hrest). }
  assert (Hround : forall f0 out,
            is_list_tools (EvCreate (round_request tools f0) out) = false
            /\ forall req out', EvCreate (round_request tools f0) out = EvCreate req out' ->
                 req_model req = model_id /\ req_max_tokens req = 1000
                 /\ req_tools req = Some tools).
  { intros f0 out. split; [reflexivity|]. intros req out' [= <- _]. repeat split. }
  induction 1 as [f | n f e | n f response tevs f' Hquiet Heff
                 | n f response tevs f' evs r Hbusy Heff Hrest IH].
  - constructor.
  - constructor; [apply Hround | constructor].
  - constructor; [apply Hround | apply Htools; exact (re_tools _ _ _ _ Heff)].
  - constructor; [apply Hround|]. apply Forall_app. split.
    + apply Htools. exact (re_tools _ _ _ _ Heff).
    + exact IH.
Qed.

(** X2.  A non-streaming task asks the session for its tools exactly
    once, as its first call.  Every later model call names the same model;
    it is either a round, which carries 1000 as token limit and the
    descriptors translated from that very listing, or the summary request,
    which carries 200 and no tools. *)
Theorem tools_listed_once_then_passed_on (query : string) (ctx : option pyval)
  (w : world E) :
  exists listed rest,
    trace (final_world (process_query query ctx w))
    = (trace w ++ EvListTools listed :: rest)%list
    /\ Forall (fun ev => is_list_tools ev = false) rest
    /\ forall req out, In (EvCreate req out) rest ->
         req_model req = model_id
         /\ ((req_tools req = None /\ req_max_tokens req = 200)
             \/ (exists ts, listed = inr ts
                            /\ req_tools req = Some (map to_param ts)
                            /\ req_max_tokens req = 1000)).
Proof.
  destruct (process_query_run query ctx w) as (evs & Hrun & Hevs).
  assert (Hloop_part :
    forall ts levs r,
      loop_run (map to_param ts) max_iterations (initial_frame query ctx) levs r ->
      Forall (fun ev => is_list_tools ev = false) levs
      /\ forall req out, In (EvCreate req out) levs ->
           req_model req = model_id
           /\ ((req_tools req = None /\ req_max_tokens req = 200)
               \/ (exists ts', @inr exn _ ts = inr ts'
                               /\ req_tools req = Some (map to_param ts')
                               /\ req_max_tokens req = 1000))).
  { intros ts levs r Hloop. pose proof (loop_run_requests _ _ _ _ _ Hloop) as Hall.
    split.
    - eapply Forall_impl; [|exact Hall]. intros ev [Hev _]. exact Hev.
    - intros req out Hin.
      destruct (proj1 (Forall_forall _ _) Hall _ Hin) as [_ Hreq].
      destruct (Hreq req out eq_refl) as (Hm & Hmax & Ht).
      split; [exact Hm|]. right. exists ts. repeat split; assumption. }
  assert (Hsum_part :
    forall ts levs f out0,
      loop_run (map to_param ts) max_iterations (initial_frame query ctx) levs (inr f) ->
      Forall (fun ev => is_list_tools ev = false)
        (levs ++ [EvCreate (summary_request (messages f)) out0])
      /\ forall req out,
           In (EvCreate req out) (levs ++ [EvCreate (summary_request (messages f)) out0]) ->
           req_model req = model_id
           /\ ((req_tools req = None /\ req_max_tokens req = 200)
               \/ (exists ts', @inr exn _ ts = inr ts'
                               /\ req_tools req = Some (map to_param ts')
                               /\ req_max_tokens req = 1000))).
  { intros ts levs f out0 Hloop. destruct (Hloop_part ts levs _ Hloop) as [Hno Hreq]. split.
    - apply Forall_app. split; [exact Hno|]. constructor; [reflexivity | constructor].
    - intros req out Hin. apply in_app_or in Hin as [Hin|[[= <- _]|[]]].
      + exact (Hreq req out Hin).
      + split; [reflexivity|]. left. split; reflexivity. }
  rewrite Hevs.
  destruct Hrun as [e | ts levs e Hloop | ts levs f e Hloop | ts levs f Hloop
                   | ts levs f b rest Hloop].
  - exists (inl e), []. split; [reflexivity|]. split; [constructor|]. intros ? ? [].
  - exists (inr ts), levs. split; [reflexivity|]. exact (Hloop_part ts levs _ Hloop).
  - eexists (inr ts), _. split; [reflexivity|]. exact (Hsum_part ts levs f _ Hloop).
  - eexists (inr ts), _. split; [reflexivity|]. exact (Hsum_part ts levs f _ Hloop).
  - eexists (inr ts), _. split; [reflexivity|]. exact (Hsum_part ts levs f _ Hloop).
Qed.

(* ----------------------------------------------------------------- *)
(** *** How the loop is left *)

Lemma loop_run_exit (tools : list tool_param) (n : nat) (f : frame) (evs : list event)
  (r : exn + frame) :
  loop_run tools n f evs r ->
  forall f', r = inr f' ->
  0 < n ->
  1 <= rounds evs
  /\ (rounds evs < n ->
      has_tool_calls f' = false
      /\ exists pre ev, evs = (pre ++ [ev])%list /\ is_quiet_round ev = true).
Proof.
  induction 1 as [f | n f e | n f response tevs f' Hquiet Heff
                 | n f response tevs f' evs r Hbusy Heff Hrest IH];
    intros f0 Hr Hn.
  - lia.
  - discriminate.
  - injection Hr as <-.
    assert (Hnone : tevs = []).
    { pose proof (re_count _ _ _ _ Heff) as Hlen. unfold requests_tools in Hquiet.
      destruct (tool_use_ids response); [|discriminate].
      destruct tevs; [reflexivity | discriminate]. }
    subst tevs. rewrite rounds_round_cons. split; [unfold rounds; simpl; lia|].
    intros _. split; [rewrite (re_flag _ _ _ _ Heff); exact Hquiet|].
    exists [], (EvCreate (round_request tools f) (inr response)).
    split; [reflexivity|]. simpl. unfold requests_tools in Hquiet.
    destruct (tool_use_ids response); [reflexivity | discriminate].
  - rewrite rounds_round_cons, rounds_app,
      (rounds_tool_events _ (re_tools _ _ _ _ Heff)).
    split; [simpl; lia|]. simpl. intros Hlt.
    destruct n as [|n].
    + inversion Hrest; subst. unfold rounds in Hlt. simpl in Hlt. lia.
    + destruct (IH f0 Hr (Nat.lt_0_succ n)) as [_ Hearly].
      destruct Hearly as (Hflag & pre & ev & -> & Hev); [lia|].
      split; [exact Hflag|].
      exists (EvCreate (round_request tools f) (inr response) :: tevs ++ pre)%list, ev.
      split; [|exact Hev]. simpl. rewrite <- app_assoc. reflexivity.
Qed.

(** X3.  Once the tools are listed the loop asks the model at least once;
    and when it is left after fewer than 20 rounds, the last call before
    the exit is a round whose response requested no tool: while the model
    keeps requesting tools, the loop goes on up to the ceiling. *)
Theorem loop_stops_early_only_on_a_quiet_round (query : string) (ctx : option pyval)
  (w : world E) (f : frame) (w1 : world E) (evs : list event) :
  run_turns query ctx w = Ok f w1 ->
  trace w1 = (trace w ++ evs)%list ->
  1 <= rounds evs
  /\ (rounds evs < max_iterations ->
      has_tool_calls f = false
      /\ exists pre ev, evs = (pre ++ [ev])%list /\ is_quiet_round ev = true).
Proof.
  intros Hrun Htr.
  destruct (run_turns_exit _ _ _ _ _ Hrun) as (ts & levs & f0 & Hloop & -> & Htr').
  rewrite Htr' in Htr. apply app_inv_head in Htr. subst evs.
  change (rounds (EvListTools (inr ts) :: levs)) with (rounds levs).
  assert (Hpos : 0 < max_iterations) by (unfold max_iterations; lia).
  destruct (loop_run_exit _ _ _ _ _ Hloop f0 eq_refl Hpos) as [Hone Hearly].
  split; [exact Hone|]. intros Hlt.
  destruct (Hearly Hlt) as (Hflag & pre & ev & -> & Hev).
  split; [rewrite has_tool_calls_note_ceiling; exact Hflag|].
  exists (EvListTools (inr ts) :: pre), ev. split; [reflexivity | exact Hev].
Qed.

(* ----------------------------------------------------------------- *)
(** *** The end of a non-streaming task, seen from the shell *)

Lemma compress_value (transcript : list message) (w : world E) :
  compress transcript w
  = let out := fst (create_oracle E (summary_request transcript) (ext w)) in
    let w' := log_event (EvCreate (summary_request transcript) out)
                (snd (create_oracle E (summary_request transcript) (ext w)))
                (emit compressing_line w) in
    match out with
    | inl e => Raise e w'
    | inr [] => Raise "list index out of range" w'
    | inr (b :: _) => Ok (PyBlock b) w'
    end.
Proof.
  unfold compress, bind, print, messages_create, first_block, ret, raise. simpl.
  destruct (create_oracle E (summary_request transcript) (ext w)) as [[e|[|b rest]] x];
    reflexivity.
Qed.

Lemma chat_step_after_turns (st : shell) (line : string) (w : world E) (f : frame)
  (w1 : world E) :
  streaming_mode st = false ->
  is_command (strip line) = false ->
  run_turns (strip line) (Some (context st)) (emit (Stdout (prompt st)) w) = Ok f w1 ->
  chat_step st line w
  = match compress (messages f) w1 with
    | Ok new_context w2 =>
        (Continue (mk_shell new_context false),
         emit (Stdout (nl ++ join nl (execution_log f))) w2)
    | Raise e w2 =>
        (Continue st, emit (Traceback e) (emit (Stdout (nl ++ "Error: " ++ e)) w2))
    end.
Proof.
  intros Hmode Hcmd Hturns. unfold chat_step.
  rewrite (chat_body_task st line w Hcmd), Hmode.
  unfold process_query, bind. rewrite Hturns.
  destruct (compress (messages f) w1) as [v w2|e w2]; reflexivity.
Qed.

(** X4.  When the loop of a non-streaming task has run but the summary
    step fails, because the model call raises or because the response has
    no content block ([IndexError]), the shell keeps its locals, the
    stored carry-over value among them, and prints the error; the
    execution log of the task is never printed. *)
Theorem failed_summary_drops_the_log (st : shell) (line : string) (w : world E)
  (f : frame) (w1 : world E) (e : exn) :
  streaming_mode st = false ->
  is_command (strip line) = false ->
  run_turns (strip line) (Some (context st)) (emit (Stdout (prompt st)) w) = Ok f w1 ->
  summary_failure (fst (create_oracle E (summary_request (messages f)) (ext w1))) = Some e ->
  fst (chat_step st line w) = Continue st
  /\ console (snd (chat_step st line w))
     = (console w1 ++ [compressing_line; Stdout (nl ++ "Error: " ++ e); Traceback e])%list.
Proof.
  intros Hmode Hcmd Hturns Hfail.
  rewrite (chat_step_after_turns st line w f w1 Hmode Hcmd Hturns), compress_value.
  cbv zeta.
  destruct (fst (create_oracle E (summary_request (messages f)) (ext w1)))
    as [e0|[|b rest]]; simpl in Hfail; try discriminate;
    injection Hfail as <-; simpl; rewrite <- !app_assoc; split; reflexivity.
Qed.

(** X5.  When the summary response of a non-streaming task has content,
    the shell stores its first content block (the block object, whatever
    follows it in the response) as the new carry-over value, which is
    truthy, and prints the execution log joined by newlines after the
    compressing notice. *)
Theorem first_summary_block_becomes_context (st : shell) (line : string) (w : world E)
  (f : frame) (w1 : world E) (b : block) (rest : list block) (x : W E) :
  streaming_mode st = false ->
  is_command (strip line) = false ->
  run_turns (strip line) (Some (context st)) (emit (Stdout (prompt st)) w) = Ok f w1 ->
  create_oracle E (summary_request (messages f)) (ext w1) = (inr (b :: rest), x) ->
  fst (chat_step st line w) = Continue (mk_shell (PyBlock b) false)
  /\ truthy (Some (PyBlock b)) = true
  /\ console (snd (chat_step st line w))
     = (console w1 ++ [compressing_line; Stdout (nl ++ join nl (execution_log f))])%list.
Proof.
  intros Hmode Hcmd Hturns Hsum.
  rewrite (chat_step_after_turns st line w f w1 Hmode Hcmd Hturns), compress_value, Hsum.
  simpl. rewrite <- !app_assoc. repeat split.
Qed.

(** X6.  A shell command makes no call to the session or the model.
    [quit] leaves the loop; any other command continues, with the
    carry-over value replaced by the sentinel on [reset] and kept
    otherwise, and the streaming flag flipped on [stream] and kept
    otherwise.  Commands are recognised whatever their letter case and the
    blanks around them. *)
Theorem shell_commands_call_nothing (st : shell) (line : string) (w : world E) :
  is_command (strip line) = true ->
  trace (snd (chat_step st line w)) = trace w
  /\ ext (snd (chat_step st line w)) = ext w
  /\ match fst (chat_step st line w) with
     | Break => lower (strip line) = "quit"
     | Continue st' =>
         lower (strip line) <> "quit"
         /\ context st'
            = (if String.eqb (lower (strip line)) "reset" then sentinel else context st)
         /\ streaming_mode st'
            = (if String.eqb (lower (strip line)) "stream" then negb (streaming_mode st)
               else streaming_mode st)
     end.
Proof.
  unfold is_command, chat_step, chat_body. unfold bind at 1. unfold print at 1.
  cbv beta iota zeta. intros Hcmd.
  destruct (String.eqb_spec (lower (strip line)) "quit") as [Hq|Hq].
  - unfold ret. simpl. repeat split. exact Hq.
  - destruct (String.eqb_spec (lower (strip line)) "stream") as [Hs|Hs].
    + unfold bind, print, ret. simpl. rewrite Hs. simpl. repeat split. discriminate.
    + destruct (String.eqb_spec (lower (strip line)) "context") as [Hc|Hc].
      * unfold bind, print, ret. simpl. rewrite Hc. simpl. repeat split. discriminate.
      * destruct (String.eqb_spec (lower (strip line)) "reset") as [Hr|Hr].
        -- unfold bind, print, ret. simpl. repeat split. exact Hq.
        -- simpl in Hcmd. discriminate.
Qed.

(** X7.  When the carry-over value handed to a task is [None] or the
    empty string, no context turn is added: every request the task sends
    to the model starts with the user turn holding the query. *)
Theorem falsy_context_adds_no_turn (query : string) (ctx : option pyval) (w : world E)
  (evs : list event) (req : request) (out : exn + list block) :
  truthy ctx = false ->
  trace (final_world (process_query query ctx w)) = (trace w ++ evs)%list ->
  In (EvCreate req out) evs ->
  exists rest, req_messages req = mk_message user (Text query) :: rest.
Proof.
  intros Hfalsy Htr Hin.
  destruct (process_query_run query ctx w) as (evs' & Hrun & Hevs).
  rewrite Hevs in Htr. apply app_inv_head in Htr. subst evs'.
  destruct (task_run_prefix _ _ _ _ Hrun req out Hin) as (rest & Hreq).
  exists rest. rewrite Hreq. unfold initial_messages. rewrite Hfalsy. reflexivity.
Qed.

(* ----------------------------------------------------------------- *)
(** *** The streaming variant: shared content lists *)

Lemma heap_append_length (l : nat) (c : block) (heap : list (list block)) :
  length (heap_append l c heap) = length heap.
Proof.
  revert l. induction heap as [|bs heap IH]; intros [|l]; simpl; try reflexivity.
  rewrite IH. reflexivity.
Qed.

Lemma heap_append_same (l : nat) (c : block) (heap : list (list block)) :
  l < length heap ->
  nth l (heap_append l c heap) [] = (nth l heap [] ++ [c])%list.
Proof.
  revert l. induction heap as [|bs heap IH]; intros [|l]; simpl; intros Hl;
    try lia; try reflexivity.
  apply IH. lia.
Qed.

Lemma heap_append_other (l l' : nat) (c : block) (heap : list (list block)) :
  l' <> l -> nth l' (heap_append l c heap) [] = nth l' heap [].
Proof.
  revert l l'. induction heap as [|bs heap IH]; intros [|l] [|l'] Hne; simpl;
    try reflexivity; try congruence.
  apply IH. congruence.
Qed.

Definition alias_turns (loc : nat) (envs : list tool_result) : list sturn :=
  flat_map (fun env => [SAssistant loc; SResults [env]]) envs.

Lemma alias_turns_app (loc : nat) (xs ys : list tool_result) :
  alias_turns loc (xs ++ ys) = (alias_turns loc xs ++ alias_turns loc ys)%list.
Proof. unfold alias_turns. apply flat_map_app. Qed.

(** One block of the streaming [for] loop. *)
Lemma s_process_content_step (b : block) (g : sframe) (w : world E) :
  exists g1 w1 envs,
    s_process_content b g w = Ok g1 w1
    /\ s_heap g1 = heap_append (s_current g) b (s_heap g)
    /\ s_current g1 = s_current g
    /\ s_messages g1 = (s_messages g ++ alias_turns (s_current g) envs)%list
    /\ map tool_use_id envs = tool_use_ids [b]
    /\ s_has_tool_calls g1 = (s_has_tool_calls g || requests_tools [b])%bool
    /\ s_iteration g1 = s_iteration g.
Proof.
  destruct b as [t | id name args | ty]; cbn [s_process_content].
  - unfold bind, print, ret. eexists _, _, []. split; [reflexivity|].
    simpl. rewrite app_nil_r, orb_false_r. repeat split.
  - unfold bind, print, try_except, session_call_tool, ret. cbn [ext emit].
    destruct (call_tool_oracle E name args (ext w)) as [[e|c] x].
    + eexists _, _, [_]. split; [reflexivity|]. simpl. rewrite orb_true_r. repeat split.
    + eexists _, _, [_]. split; [reflexivity|]. simpl. rewrite orb_true_r. repeat split.
  - unfold ret. eexists _, _, []. split; [reflexivity|].
    simpl. rewrite app_nil_r, orb_false_r. repeat split.
Qed.

Lemma requests_tools_cons (b : block) (bs : list block) :
  requests_tools (b :: bs) = (requests_tools [b] || requests_tools bs)%bool.
Proof. destruct b; reflexivity. Qed.

Lemma tool_use_ids_cons (b : block) (bs : list block) :
  tool_use_ids (b :: bs) = (tool_use_ids [b] ++ tool_use_ids bs)%list.
Proof. destruct b; reflexivity. Qed.

(** The streaming [for] loop: the list object of the round collects every
    block, the other lists are left alone, and each request adds two turns
    that point to the list of the round. *)
Lemma s_for_each_alias (bs : list block) :
  forall (g : sframe) (w : world E),
  s_current g < length (s_heap g) ->
  exists g' w' envs,
    for_each s_process_content bs g w = Ok g' w'
    /\ s_current g' = s_current g
    /\ length (s_heap g') = length (s_heap g)
    /\ (forall l, l <> s_current g -> nth l (s_heap g') [] = nth l (s_heap g) [])
    /\ nth (s_current g) (s_heap g') [] = (nth (s_current g) (s_heap g) [] ++ bs)%list
    /\ s_messages g' = (s_messages g ++ alias_turns (s_current g) envs)%list
    /\ map tool_use_id envs = tool_use_ids bs
    /\ s_has_tool_calls g' = (s_has_tool_calls g || requests_tools bs)%bool
    /\ s_iteration g' = s_iteration g.
Proof.
  induction bs as [|b bs IH]; intros g w Hcur.
  - exists g, w, []. simpl. unfold ret. rewrite !app_nil_r, orb_false_r. repeat split.
  - rewrite for_each_cons.
    destruct (s_process_content_step b g w)
      as (g1 & w1 & envs1 & Hstep & Hheap1 & Hcur1 & Hmsg1 & Hids1 & Hhas1 & Hit1).
    rewrite Hstep.
    assert (Hcur1' : s_current g1 < length (s_heap g1))
      by (rewrite Hcur1, Hheap1, heap_append_length; exact Hcur).
    destruct (IH g1 w1 Hcur1')
      as (g' & w' & envs & Hrun & Hc & Hlen & Hother & Hsame & Hmsg & Hids & Hhas & Hit).
    exists g', w', (envs1 ++ envs)%list. split; [exact Hrun|].
    split; [rewrite Hc; exact Hcur1|].
    split; [rewrite Hlen, Hheap1; apply heap_append_length|].
    split; [|split; [|split; [|split; [|split]]]].
    + intros l Hl. rewrite Hother by (rewrite Hcur1; exact Hl).
      rewrite Hheap1. apply heap_append_other. exact Hl.
    + rewrite Hcur1 in Hsame. rewrite Hsame, Hheap1, heap_append_same by exact Hcur.
      rewrite <- app_assoc. reflexivity.
    + rewrite Hmsg, Hmsg1, Hcur1, alias_turns_app, <- app_assoc. reflexivity.
    + rewrite map_app, Hids1, Hids. symmetry. apply tool_use_ids_cons.
    + rewrite Hhas, Hhas1, (requests_tools_cons b bs), orb_assoc. reflexivity.
    + rewrite Hit. exact Hit1.
Qed.

Lemma deref_agree (heap1 heap2 : list (list block)) (msgs : list sturn) :
  Forall (fun t => match t with
                   | SAssistant l => nth l heap1 [] = nth l heap2 []
                   | _ => True
                   end) msgs ->
  map (deref heap1) msgs = map (deref heap2) msgs.
Proof.
  induction 1 as [|t msgs Ht _ IH]; simpl; [reflexivity|].
  rewrite IH. destruct t; simpl; try reflexivity. rewrite Ht. reflexivity.
Qed.

Lemma deref_alias_turns (heap : list (list block)) (loc : nat) (envs : list tool_result) :
  map (deref heap) (alias_turns loc envs) = stream_turns (nth loc heap []) envs.
Proof.
  unfold alias_turns, stream_turns.
  induction envs as [|env envs IH]; simpl; [reflexivity|]. rewrite IH. reflexivity.
Qed.

(** X8.  A streaming round that gets a response keeps the stored turns
    pointing into the heap, and extends what the next request will send
    by two turns per tool-invocation request: an assistant turn, then a
    user turn holding the envelope of that request alone.  Every one of
    these assistant turns holds the whole response, the blocks that come
    after that request included, because all of them share the list the
    round is still appending to; the turns sent earlier are unchanged. *)
Theorem streaming_round_shares_the_response (tools : list tool_param) (f : sframe)
  (w : world E) (bs : list block) (x : W E) :
  s_wf f ->
  create_oracle E (s_round_request tools f) (ext w) = (inr bs, x) ->
  exists f' w' envs,
    s_round tools f w = Ok f' w'
    /\ s_wf f'
    /\ s_transcript f' = (s_transcript f ++ stream_turns bs envs)%list
    /\ map tool_use_id envs = tool_use_ids bs
    /\ s_has_tool_calls f' = requests_tools bs.
Proof.
  intros Hwf Hresp. unfold s_round, bind, print, messages_create. cbn [ext emit].
  change (mk_request model_id 1000
            (map (deref (s_heap (s_incr_iteration f))) (s_messages (s_incr_iteration f)))
            (Some tools)) with (s_round_request tools f).
  rewrite Hresp.
  set (f0 := s_set_has_tool_calls false (fresh_content (s_incr_iteration f))).
  assert (Hcur0 : s_current f0 < length (s_heap f0))
    by (simpl; rewrite length_app; simpl; lia).
  match goal with |- context [for_each s_process_content bs f0 ?v] =>
    destruct (s_for_each_alias bs f0 v Hcur0)
      as (g & w' & envs & Hrun & Hc & Hlen & Hother & Hsame & Hmsg & Hids & Hhas & Hit)
  end.
  rewrite Hrun. simpl in Hc, Hlen, Hother, Hsame, Hmsg, Hhas.
  rewrite length_app in Hlen. simpl in Hlen.
  assert (Hbs : nth (length (s_heap f)) (s_heap g) [] = bs).
  { rewrite Hsame, app_nth2, Nat.sub_diag by lia. reflexivity. }
  assert (Hold : forall l, l < length (s_heap f) ->
            nth l (s_heap g) [] = nth l (s_heap f) []).
  { intros l Hl. rewrite Hother by lia. apply app_nth1. exact Hl. }
  assert (Hkeep : forall heap,
            (forall l, l < length (s_heap f) -> nth l heap [] = nth l (s_heap f) []) ->
            map (deref heap) (s_messages f) = s_transcript f).
  { intros heap Hagree. apply deref_agree.
    eapply Forall_impl; [|exact Hwf]. intros [q|l|rs]; try (intros; exact I).
    intros Hl. apply Hagree. exact Hl. }
  destruct (s_has_tool_calls g) eqn:Hflag; cbn [negb].
  - eexists _, w', envs. split; [reflexivity|].
    assert (Hfresh : forall l, l <= length (s_heap f) ->
              nth l (s_heap g ++ [[]]) [] = nth l (s_heap g) [])
      by (intros l Hl; apply app_nth1; lia).
    split; [|split; [|split; [exact Hids | simpl; rewrite Hflag; exact Hhas]]].
    + unfold s_wf. simpl. rewrite Hmsg, length_app, Hlen. simpl.
      apply Forall_app. split.
      * eapply Forall_impl; [|exact Hwf]. intros [q|l|rs]; try (intros; exact I).
        intros Hl. lia.
      * unfold alias_turns. clear. induction envs as [|env envs IH]; simpl.
        -- constructor.
        -- constructor; [lia|]. constructor; [exact I | exact IH].
    + unfold s_transcript. simpl. rewrite Hmsg, map_app, deref_alias_turns.
      rewrite (Hfresh (length (s_heap f)) (Nat.le_refl _)), Hbs.
      f_equal. apply Hkeep. intros l Hl. rewrite Hfresh by lia. apply Hold. exact Hl.
  - unfold bind, print, ret. eexists g, _, envs. split; [reflexivity|].
    assert (Hnone : envs = []).
    { symmetry in Hhas. unfold requests_tools in Hhas.
      destruct (tool_use_ids bs); [|discriminate].
      destruct envs; [reflexivity | discriminate]. }
    subst envs. simpl in Hmsg. rewrite app_nil_r in Hmsg.
    split; [|split; [|split; [exact Hids | rewrite Hflag; exact Hhas]]].
    + unfold s_wf. rewrite Hmsg, Hlen.
      eapply Forall_impl; [|exact Hwf]. intros [q|l|rs]; try (intros; exact I).
      intros Hl. lia.
    + unfold s_transcript at 1. rewrite Hmsg. unfold stream_turns. simpl.
      rewrite app_nil_r. apply Hkeep. exact Hold.
Qed.

(* ----------------------------------------------------------------- *)
(** *** The streaming variant: bound and result *)

Lemma s_round_one_round (tools : list tool_param) (f : sframe) (w : world E) :
  exists evs,
    trace (final_world (s_round tools f w)) = (trace w ++ evs)%list
    /\ rounds evs = 1.
Proof.
  unfold s_round, bind, print, messages_create. cbn [ext emit trace].
  match goal with |- context [create_oracle E ?r (ext w)] =>
    destruct (create_oracle E r (ext w)) as [[e|response] x] eqn:Hreq end.
  - eexists [_]. split; reflexivity.
  - match goal with |- context [for_each s_process_content response ?g ?v] =>
      destruct (s_for_each_content response g v) as (f' & w' & evs & Hrun & Htr & Hcalls)
    end.
    rewrite Hrun. eexists (_ :: evs).
    split.
    + destruct (negb (s_has_tool_calls f')); unfold ret; simpl;
        rewrite Htr; simpl; rewrite <- app_assoc; reflexivity.
    + change (rounds (?c :: evs)) with (S (rounds evs)).
      rewrite (rounds_tool_events _ Hcalls). reflexivity.
Qed.

Lemma s_turn_loop_rounds (tools : list tool_param) (n : nat) :
  forall (f : sframe) (w : world E),
  exists evs,
    trace (final_world (s_turn_loop n tools f w)) = (trace w ++ evs)%list
    /\ rounds evs <= n.
Proof.
  induction n as [|n IH]; intros f w.
  - exists []. simpl. rewrite app_nil_r. split; [reflexivity|]. unfold rounds. simpl. lia.
  - cbn [s_turn_loop]. unfold bind.
    destruct (s_round_one_round tools f w) as (evs & Htr & Hone).
    destruct (s_round tools f w) as [f' w'|e w']; simpl in Htr.
    + destruct (s_has_tool_calls f').
      * destruct (IH f' w') as (evs' & Htr' & Hle).
        exists (evs ++ evs')%list. split.
        -- rewrite Htr', Htr, app_assoc. reflexivity.
        -- rewrite rounds_app. lia.
      * exists evs. unfold ret. simpl. split; [exact Htr | lia].
    + exists evs. simpl. split; [exact Htr | lia].
Qed.

(** X9.  A streaming task, too, makes at most 20 rounds; it lists the
    tools as its first call; and when it returns, it returns the fixed
    text [Task completed!], whether the model finished or the ceiling cut
    the task short. *)
Theorem streaming_task_is_bounded (query : string) (w : world E) :
  (exists listed rest,
     trace (final_world (process_query_with_streaming query w))
     = (trace w ++ EvListTools listed :: rest)%list
     /\ rounds rest <= max_iterations)
  /\ match outcome (process_query_with_streaming query w) with
     | inr v => v = "Task completed!"
     | inl _ => True
     end.
Proof.
  unfold process_query_with_streaming, bind, session_list_tools, print.
  destruct (list_tools_oracle E (ext w)) as [[e|ts] x].
  - split; [|exact I]. exists (inl e), []. split; [reflexivity|].
    unfold rounds. simpl. lia.
  - cbn [ext emit]. rewrite Nat.sub_0_r.
    match goal with |- context [s_turn_loop ?n ?t ?g ?v] =>
      destruct (s_turn_loop_rounds t n g v) as (evs & Htr & Hle);
      destruct (s_turn_loop n t g v) as [f' w'|e w'] end;
      simpl in Htr.
    + split.
      * exists (inr ts), evs. split; [|exact Hle].
        destruct (max_iterations <=? s_iteration f')%nat; unfold ret; simpl;
          rewrite Htr, <- app_assoc; reflexivity.
      * destruct (max_iterations <=? s_iteration f')%nat; unfold ret; simpl;
          reflexivity.
    + split; [|exact I]. exists (inr ts), evs. simpl.
      split; [rewrite Htr, <- app_assoc; reflexivity | exact Hle].
Qed.

(** X19.  The sentinel the shell starts with, and goes back to on
    [reset], is a non-empty string: the first non-streaming task of a
    session, and the first one after a reset, still sends an assistant
    context turn, holding the sentinel text, before the user query. *)
Theorem sentinel_is_sent_as_context (st : shell) (line : string) (w : world E)
  (evs : list event) (req : request) (out : exn + list block) :
  context st = sentinel ->
  streaming_mode st = false ->
  is_command (strip line) = false ->
  trace (snd (chat_step st line w)) = (trace w ++ evs)%list ->
  In (EvCreate req out) evs ->
  exists rest,
    req_messages req
    = mk_message assistant
        (Text "Previous conversation context: None. Start of a new conversation.")
      :: mk_message user (Text (strip line)) :: rest.
Proof.
  intros Hctx Hmode Hcmd Htr Hin.
  pose proof (chat_step_task st line w Hcmd) as Hstep.
  rewrite Hmode in Hstep. cbv zeta in Hstep. destruct Hstep as (Hsame & _ & _).
  destruct (process_query_run (strip line) (Some (context st))
              (emit (Stdout (prompt st)) w)) as (evs' & Hrun & Hevs).
  rewrite Hsame, Hevs in Htr. apply app_inv_head in Htr. subst evs'.
  destruct (task_run_prefix _ _ _ _ Hrun req out Hin) as (rest & Hreq).
  exists rest. rewrite Hreq, Hctx. reflexivity.
Qed.

End Facts.

Lemma round_answers_every_request_witness :
  exists f' w' tevs,
    round (E := Demo.online) [] Demo.empty_frame
      (Demo.start _ [inr [TextBlock "on it"; Demo.use "toolu_1" "add_title";
                          Demo.use "toolu_2" "no_such_tool"]])
    = Ok f' w'
    /\ trace w'
       = ([] ++ EvCreate (round_request [] Demo.empty_frame)
                  (inr [TextBlock "on it"; Demo.use "toolu_1" "add_title";
                        Demo.use "toolu_2" "no_such_tool"]) :: tevs)%list
    /\ answers [TextBlock "on it"; Demo.use "toolu_1" "add_title";
                Demo.use "toolu_2" "no_such_tool"] tevs (tool_results f').
Proof.
  apply (round_answers_every_request (E := Demo.online) [] Demo.empty_frame
           (Demo.start _ [inr [TextBlock "on it"; Demo.use "toolu_1" "add_title";
                               Demo.use "toolu_2" "no_such_tool"]])
           [TextBlock "on it"; Demo.use "toolu_1" "add_title";
            Demo.use "toolu_2" "no_such_tool"] []).
  reflexivity.
Defined.

(** One round, answered with plain text: the loop is left after it. *)
Lemma loop_stops_early_only_on_a_quiet_round_witness :
  1 <= rounds (trace (final_world Demo.hello_turns))
  /\ (rounds (trace (final_world Demo.hello_turns)) < max_iterations ->
      has_tool_calls (Demo.frame_of Demo.hello_turns) = false
      /\ exists pre ev,
           trace (final_world Demo.hello_turns) = (pre ++ [ev])%list
           /\ is_quiet_round ev = true).
Proof.
  apply (loop_stops_early_only_on_a_quiet_round (E := Demo.online) "hello" None
           Demo.hello_world (Demo.frame_of Demo.hello_turns)
           (final_world Demo.hello_turns) (trace (final_world Demo.hello_turns))).
  - vm_compute. reflexivity.
  - vm_compute. reflexivity.
Defined.

(** The summary response has no content block. *)
Lemma failed_summary_drops_the_log_witness :
  fst (chat_step Demo.plain_shell "hello" Demo.empty_summary_world)
  = Continue Demo.plain_shell
  /\ console (snd (chat_step Demo.plain_shell "hello" Demo.empty_summary_world))
     = (console (final_world (Demo.turns_from Demo.empty_summary_world))
        ++ [compressing_line;
            Stdout (nl ++ "Error: " ++ "list index out of range");
            Traceback "list index out of range"])%list.
Proof.
  apply (failed_summary_drops_the_log (E := Demo.online) Demo.plain_shell "hello"
           Demo.empty_summary_world
           (Demo.frame_of (Demo.turns_from Demo.empty_summary_world))
           (final_world (Demo.turns_from Demo.empty_summary_world))
           "list index out of range").
  - reflexivity.
  - vm_compute. reflexivity.
  - vm_compute. reflexivity.
  - vm_compute. reflexivity.
Defined.

(** The summary response holds two blocks; the first one is stored. *)
Lemma first_summary_block_becomes_context_witness :
  fst (chat_step Demo.plain_shell "hello" Demo.two_block_world)
  = Continue (mk_shell (PyBlock (TextBlock "S")) false)
  /\ truthy (Some (PyBlock (TextBlock "S"))) = true
  /\ console (snd (chat_step Demo.plain_shell "hello" Demo.two_block_world))
     = (console (final_world (Demo.turns_from Demo.two_block_world))
        ++ [compressing_line;
            Stdout (nl ++ join nl (execution_log
                                     (Demo.frame_of (Demo.turns_from Demo.two_block_world))))])%list.
Proof.
  apply (first_summary_block_becomes_context (E := Demo.online) Demo.plain_shell "hello"
           Demo.two_block_world
           (Demo.frame_of (Demo.turns_from Demo.two_block_world))
           (final_world (Demo.turns_from Demo.two_block_world))
           (TextBlock "S") [TextBlock "more"] []).
  - reflexivity.
  - vm_compute. reflexivity.
  - vm_compute. reflexivity.
  - vm_compute. reflexivity.
Defined.

(** [reset], typed in capitals between blanks. *)
Lemma shell_commands_call_nothing_witness :
  trace (snd (chat_step Demo.streaming_shell "  RESET " Demo.streaming_world))
  = trace Demo.streaming_world
  /\ ext (snd (chat_step Demo.streaming_shell "  RESET " Demo.streaming_world))
     = ext Demo.streaming_world
  /\ match fst (chat_step Demo.streaming_shell "  RESET " Demo.streaming_world) with
     | Break => lower (strip "  RESET ") = "quit"
     | Continue st' =>
         lower (strip "  RESET ") <> "quit"
         /\ context st'
            = (if String.eqb (lower (strip "  RESET ")) "reset" then sentinel
               else context Demo.streaming_shell)
         /\ streaming_mode st'
            = (if String.eqb (lower (strip "  RESET ")) "stream"
               then negb (streaming_mode Demo.streaming_shell)
               else streaming_mode Demo.streaming_shell)
     end.
Proof.
  apply (shell_commands_call_nothing (E := Demo.online) Demo.streaming_shell "  RESET "
           Demo.streaming_world).
  vm_compute. reflexivity.
Defined.

(** The empty string as carry-over value. *)
Lemma falsy_context_adds_no_turn_witness :
  exists rest,
    req_messages (round_request [to_param Demo.title_tool]
                    (initial_frame (E := Demo.online) "hello" None))
    = mk_message user (Text "hello") :: rest.
Proof.
  apply (falsy_context_adds_no_turn (E := Demo.online) "hello" (Some (PyStr ""))
           Demo.hello_world (trace (final_world Demo.blank_context_task))
           (round_request [to_param Demo.title_tool]
              (initial_frame (E := Demo.online) "hello" None))
           (inr [TextBlock "hi"])).
  - reflexivity.
  - vm_compute. reflexivity.
  - vm_compute. right. left. reflexivity.
Defined.

(** The text block that follows the tool request is part of the assistant
    turn stored for that request. *)
Lemma streaming_round_shares_the_response_witness :
  exists f' w' envs,
    s_round (E := Demo.online) [] Demo.fresh_stream (Demo.start _ [inr Demo.late_text])
    = Ok f' w'
    /\ s_wf f'
    /\ s_transcript f'
       = (s_transcript Demo.fresh_stream ++ stream_turns Demo.late_text envs)%list
    /\ map tool_use_id envs = tool_use_ids Demo.late_text
    /\ s_has_tool_calls f' = requests_tools Demo.late_text.
Proof.
  apply (streaming_round_shares_the_response (E := Demo.online) [] Demo.fresh_stream
           (Demo.start _ [inr Demo.late_text]) Demo.late_text []).
  - repeat constructor.
  - reflexivity.
Defined.

(** The first task of a session. *)
Lemma sentinel_is_sent_as_context_witness :
  exists rest,
    req_messages (round_request [to_param Demo.title_tool]
                    (initial_frame (E := Demo.online) "first" (Some sentinel)))
    = mk_message assistant
        (Text "Previous conversation context: None. Start of a new conversation.")
      :: mk_message user (Text (strip "first")) :: rest.
Proof.
  apply (sentinel_is_sent_as_context (E := Demo.online) (mk_shell sentinel false) "first"
           Demo.two_tasks_world (trace (snd Demo.after_first))
           (round_request [to_param Demo.title_tool]
              (initial_frame (E := Demo.online) "first" (Some sentinel)))
           (inr [TextBlock "hi"])).
  - reflexivity.
  - reflexivity.
  - vm_compute. reflexivity.
  - vm_compute. reflexivity.
  - vm_compute. right. left. reflexivity.
Defined.

End ClientExtras.

(* ================================================================= *)
(** ** Further properties of the document server *)

Module DoclingExtras.
Import Docling.

Section Facts.
Context {G : Engine}.

(* ----------------------------------------------------------------- *)
(** *** What each tool does on a loaded document with a non-empty stack *)

Lemma check_stack_top (d : option (Doc G)) (st : list NodeItem) (x : NodeItem) :
  check_stack (mk_shared d (st ++ [x])) = (inr tt, mk_shared d (st ++ [x]))
  /\ top (mk_shared d (st ++ [x])) = (inr x, mk_shared d (st ++ [x])).
Proof.
  unfold check_stack, top. cbn [stack_cache]. rewrite length_app, rev_unit.
  cbn [length]. rewrite Nat.add_1_r. split; reflexivity.
Qed.

Lemma set_top_push (d : option (Doc G)) (st : list NodeItem) (x item : NodeItem) :
  set_top item (mk_shared d (st ++ [x])) = (inr tt, mk_shared d (st ++ [item])).
Proof.
  unfold set_top. cbn [stack_cache document]. rewrite removelast_last.
  destruct st; reflexivity.
Qed.

Lemma pop_push (d : option (Doc G)) (st : list NodeItem) (x : NodeItem) :
  pop (mk_shared d (st ++ [x])) = (inr tt, mk_shared d st).
Proof.
  unfold pop. cbn [stack_cache document]. rewrite removelast_last.
  destruct st; reflexivity.
Qed.

Lemma add_title_value (doc : Doc G) (st : list NodeItem) (parent : NodeItem)
  (title : string) :
  add_title_to_docling_document title (mk_shared (Some doc) (st ++ [parent]))
  = replaces_top "A list is currently opened. Please close the list before adding a title!"
      doc st parent (add_title G title doc).
Proof.
  destruct (check_stack_top (Some doc) st parent) as [Hcheck Htop].
  unfold add_title_to_docling_document, replaces_top, tbind, the_document.
  cbn [document]. rewrite Hcheck, Htop.
  destruct (is_open_list parent); [reflexivity|].
  destruct (add_title G title doc) as [item doc']. unfold set_document.
  cbn [stack_cache fst snd]. rewrite set_top_push. reflexivity.
Qed.

Lemma add_section_heading_value (doc : Doc G) (st : list NodeItem) (parent : NodeItem)
  (heading : string) (level : nat) :
  add_section_heading_to_docling_document heading level
    (mk_shared (Some doc) (st ++ [parent]))
  = replaces_top
      "A list is currently opened. Please close the list before adding a section-heading!"
      doc st parent (add_heading G heading level doc).
Proof.
  destruct (check_stack_top (Some doc) st parent) as [Hcheck Htop].
  unfold add_section_heading_to_docling_document, replaces_top, tbind, the_document.
  cbn [document]. rewrite Hcheck, Htop.
  destruct (is_open_list parent); [reflexivity|].
  destruct (add_heading G heading level doc) as [item doc']. unfold set_document.
  cbn [stack_cache fst snd]. rewrite set_top_push. reflexivity.
Qed.

Lemma add_paragraph_value (doc : Doc G) (st : list NodeItem) (parent : NodeItem)
  (paragraph : string) :
  add_paragraph_to_docling_document paragraph (mk_shared (Some doc) (st ++ [parent]))
  = replaces_top
      "A list is currently opened. Please close the list before adding a paragraph!"
      doc st parent (add_text G TEXT paragraph doc).
Proof.
  destruct (check_stack_top (Some doc) st parent) as [Hcheck Htop].
  unfold add_paragraph_to_docling_document, replaces_top, tbind, the_document.
  cbn [document]. rewrite Hcheck, Htop.
  destruct (is_open_list parent); [reflexivity|].
  destruct (add_text G TEXT paragraph doc) as [item doc']. unfold set_document.
  cbn [stack_cache fst snd]. rewrite set_top_push. reflexivity.
Qed.

Lemma open_list_value (doc : Doc G) (st : list NodeItem) (parent : NodeItem) :
  open_list_in_docling_document (mk_shared (Some doc) (st ++ [parent]))
  = (inr (export_to_dict G (snd (add_group G LIST doc))),
     mk_shared (Some (snd (add_group G LIST doc)))
       ((st ++ [parent]) ++ [fst (add_group G LIST doc)])).
Proof.
  destruct (check_stack_top (Some doc) st parent) as [Hcheck _].
  unfold open_list_in_docling_document, tbind, the_document.
  cbn [document]. rewrite Hcheck.
  destruct (add_group G LIST doc) as [item doc']. reflexivity.
Qed.

Lemma close_list_value (doc : Doc G) (st : list NodeItem) (parent : NodeItem) :
  close_list_in_docling_document (mk_shared (Some doc) (st ++ [parent]))
  = (inr (export_to_dict G doc), mk_shared (Some doc) st).
Proof.
  destruct (check_stack_top (Some doc) st parent) as [Hcheck _].
  unfold close_list_in_docling_document, tbind, the_document.
  cbn [document]. rewrite Hcheck, pop_push. reflexivity.
Qed.

Lemma add_list_items_value (doc : Doc G) (st : list NodeItem) (parent : NodeItem)
  (list_items : list ListItem) :
  add_list_items_to_list_in_docling_document list_items
    (mk_shared (Some doc) (st ++ [parent]))
  = if is_open_list parent then
      (inr (export_to_dict G (with_items doc parent list_items)),
       mk_shared (Some (with_items doc parent list_items)) (st ++ [parent]))
    else
      (inl "No list is currently opened. Please open a list before adding list-items!",
       mk_shared (Some doc) (st ++ [parent])).
Proof.
  destruct (check_stack_top (Some doc) st parent) as [Hcheck Htop].
  unfold add_list_items_to_list_in_docling_document, tbind, the_document.
  cbn [document]. rewrite Hcheck, Htop.
  destruct (is_open_list parent); reflexivity.
Qed.

Lemma add_table_value (doc : Doc G) (st : list NodeItem) (parent : NodeItem)
  (html : string) (captions footnotes : option (list string)) :
  exists doc',
    add_table_in_html_format_to_docling_document html captions footnotes
      (mk_shared (Some doc) (st ++ [parent]))
    = match convert_html G ("<html><body>" ++ html ++ "</body></html>") with
      | inl e => (inl e, mk_shared (Some doc) (st ++ [parent]))
      | inr (true, _ :: _) =>
          (inr (export_to_dict G doc'), mk_shared (Some doc') (st ++ [parent]))
      | inr _ =>
          (inl "Could not parse the html string of the table! Please fix the html and try again!",
           mk_shared (Some doc) (st ++ [parent]))
      end.
Proof.
  destruct (check_stack_top (Some doc) st parent) as [Hcheck _].
  unfold add_table_in_html_format_to_docling_document, tbind, the_document.
  cbn [document]. rewrite Hcheck.
  destruct (convert_html G ("<html><body>" ++ html ++ "</body></html>"))
    as [e|[[|] [|data tables]]]; try (exists doc; reflexivity).
  destruct (add_table G data doc) as [table doc1]. eexists. reflexivity.
Qed.

(** X10.  While no document is loaded, every tool, the export included,
    raises the not-initialized error, whatever its arguments and whatever
    is on the stack, and changes nothing. *)
Theorem tools_need_a_document (c : tool_call) (s : shared G) :
  document s = None ->
  run_tool c s = (inl not_initialized, s).
Proof.
  intros Hdoc. destruct s as [d st]. simpl in Hdoc. subst d.
  destruct c; reflexivity.
Qed.

Lemma stack_cases (stack : list NodeItem) :
  stack = [] \/ exists st parent, stack = (st ++ [parent])%list.
Proof.
  destruct stack as [|x stack]; [left; reflexivity|]. right.
  destruct (@exists_last _ (x :: stack)) as (st & parent & Heq); [discriminate|].
  exists st, parent. exact Heq.
Qed.

(** X11.  A tool call that raises leaves the shared document and the
    stack exactly as they were: every check a tool makes comes before its
    first change. *)
Theorem failed_tool_changes_nothing (c : tool_call) (s : shared G) (e : exn) :
  fst (run_tool c s) = inl e ->
  snd (run_tool c s) = s.
Proof.
  destruct s as [[doc|] stack]; [|destruct c; reflexivity].
  destruct (stack_cases stack) as [->|(st & parent & ->)]; [destruct c; reflexivity|].
  destruct c; unfold run_tool, as_update.
  - reflexivity.
  - rewrite add_title_value. unfold replaces_top.
    destruct (is_open_list parent); cbn [fst snd]; [reflexivity | discriminate].
  - rewrite add_section_heading_value. unfold replaces_top.
    destruct (is_open_list parent); cbn [fst snd]; [reflexivity | discriminate].
  - rewrite add_paragraph_value. unfold replaces_top.
    destruct (is_open_list parent); cbn [fst snd]; [reflexivity | discriminate].
  - rewrite open_list_value. discriminate.
  - rewrite close_list_value. discriminate.
  - rewrite add_list_items_value.
    destruct (is_open_list parent); cbn [fst snd]; [discriminate | reflexivity].
  - destruct (add_table_value doc st parent html_table table_captions table_footnotes)
      as (doc' & ->).
    destruct (convert_html G ("<html><body>" ++ html_table ++ "</body></html>"))
      as [e0|[[|] [|data tables]]]; cbn [fst snd]; try reflexivity; discriminate.
Qed.

(** X12.  After a successful call a document is still loaded, and the
    height of the stack is one more after opening a list, one less after
    closing one, and unchanged after every other tool. *)
Theorem stack_height_after_success (c : tool_call) (s : shared G) (out : tool_output) :
  fst (run_tool c s) = inr out ->
  document (snd (run_tool c s)) <> None
  /\ length (stack_cache (snd (run_tool c s))) = height_after c (length (stack_cache s)).
Proof.
  destruct s as [[doc|] stack]; [|destruct c; discriminate].
  destruct (stack_cases stack) as [->|(st & parent & ->)].
  - destruct c; try discriminate. intros _. split; [discriminate | reflexivity].
  - destruct c; unfold run_tool, as_update, height_after.
    + intros _. split; [discriminate | reflexivity].
    + rewrite add_title_value. unfold replaces_top.
      destruct (is_open_list parent); cbn [fst snd document stack_cache];
        [discriminate|]. intros _. split; [discriminate|].
      rewrite !length_app. reflexivity.
    + rewrite add_section_heading_value. unfold replaces_top.
      destruct (is_open_list parent); cbn [fst snd document stack_cache];
        [discriminate|]. intros _. split; [discriminate|].
      rewrite !length_app. reflexivity.
    + rewrite add_paragraph_value. unfold replaces_top.
      destruct (is_open_list parent); cbn [fst snd document stack_cache];
        [discriminate|]. intros _. split; [discriminate|].
      rewrite !length_app. reflexivity.
    + rewrite open_list_value. cbn [fst snd document stack_cache]. intros _.
      split; [discriminate|]. rewrite (length_app (st ++ [parent])). cbn [length].
      lia.
    + rewrite close_list_value. cbn [fst snd document stack_cache]. intros _.
      split; [discriminate|]. rewrite length_app. cbn [length]. lia.
    + rewrite add_list_items_value.
      destruct (is_open_list parent); cbn [fst snd document stack_cache];
        [|discriminate]. intros _. split; [discriminate | reflexivity].
    + destruct (add_table_value doc st parent html_table table_captions table_footnotes)
        as (doc' & ->).
      destruct (convert_html G ("<html><body>" ++ html_table ++ "</body></html>"))
        as [e0|[[|] [|data tables]]]; cbn [fst snd document stack_cache];
        try discriminate.
      intros _. split; [discriminate | reflexivity].
Qed.

(** X13.  Opening a list and closing it again gives back the stack as it
    was before; the document keeps the group that was added. *)
Theorem open_then_close_restores_stack (s : shared G) (out : json) (s1 : shared G) :
  open_list_in_docling_document s = (inr out, s1) ->
  exists out',
    close_list_in_docling_document s1
    = (inr out', mk_shared (document s1) (stack_cache s)).
Proof.
  destruct s as [[doc|] stack]; [|discriminate].
  destruct (stack_cases stack) as [->|(st & parent & ->)]; [discriminate|].
  rewrite open_list_value. intros [= <- <-]. rewrite close_list_value.
  eexists. reflexivity.
Qed.

(** X14.  With a document loaded the top of the stack decides what may be
    added.  While it is a LIST or ORDERED_LIST group, a title, a section
    heading and a paragraph are each refused with their own message and
    nothing changes, and list items are accepted without moving the stack;
    whatever else is on top, list items are refused and nothing changes. *)
Theorem open_list_decides_what_is_added (s : shared G) (doc : Doc G)
  (st : list NodeItem) (parent : NodeItem) :
  document s = Some doc ->
  stack_cache s = (st ++ [parent])%list ->
  if is_open_list parent then
    (forall title,
       add_title_to_docling_document title s
       = (inl "A list is currently opened. Please close the list before adding a title!", s))
    /\ (forall heading level,
          add_section_heading_to_docling_document heading level s
          = (inl "A list is currently opened. Please close the list before adding a section-heading!", s))
    /\ (forall paragraph,
          add_paragraph_to_docling_document paragraph s
          = (inl "A list is currently opened. Please close the list before adding a paragraph!", s))
    /\ (forall items,
          exists out doc',
            add_list_items_to_list_in_docling_document items s
            = (inr out, mk_shared (Some doc') (stack_cache s)))
  else
    forall items,
      add_list_items_to_list_in_docling_document items s
      = (inl "No list is currently opened. Please open a list before adding list-items!", s).
Proof.
  intros Hdoc Hstack. destruct s as [d stack]. cbn [document stack_cache] in Hdoc, Hstack.
  subst d stack.
  destruct (is_open_list parent) eqn:Hopen.
  - split; [|split; [|split]].
    + intros title. rewrite add_title_value. unfold replaces_top. rewrite Hopen. reflexivity.
    + intros heading level. rewrite add_section_heading_value. unfold replaces_top.
      rewrite Hopen. reflexivity.
    + intros paragraph. rewrite add_paragraph_value. unfold replaces_top.
      rewrite Hopen. reflexivity.
    + intros items. rewrite add_list_items_value, Hopen. eexists _, _. reflexivity.
  - intros items. rewrite add_list_items_value, Hopen. reflexivity.
Qed.

(** X15.  The upload route never touches the stack, and when the handler
    is left by an exception the shared document is untouched as well. *)
Theorem upload_document_keeps_stack (request_json : exn + json) (s : shared G) :
  stack_cache (snd (upload_document request_json s)) = stack_cache s
  /\ match fst (upload_document request_json s) with
     | inl _ => snd (upload_document request_json s) = s
     | inr _ => True
     end.
Proof.
  unfold upload_document.
  destruct request_json as [e|json_data]; [split; reflexivity|].
  destruct (py_in "document" json_data) as [e|[|]]; try (split; [reflexivity | exact I || reflexivity]).
  destruct (py_getitem json_data "document") as [e|d]; [split; reflexivity|].
  destruct (model_validate G d); split; try reflexivity; exact I.
Qed.

(** X16.  What an answer of the upload route tells.  The route answers
    with 200 or 400 only.  A 200 means the body was a JSON object with a
    [document] key whose value the document model accepted, and the shared
    document is now that validated value.  A 400 means the membership test
    for [document] came out false (an object without the key, a list
    without that string, a string without that substring), and nothing
    changed. *)
Theorem upload_document_answers (request_json : exn + json) (s : shared G)
  (resp : JSONResponse) :
  fst (upload_document request_json s) = inr resp ->
  (resp = mk_JSONResponse (Message "Document uploaded successfully.") 200
   /\ exists fields d doc,
        request_json = inr (JObj fields)
        /\ lookup "document" fields = Some d
        /\ model_validate G d = inr doc
        /\ snd (upload_document request_json s) = mk_shared (Some doc) (stack_cache s))
  \/ (resp = mk_JSONResponse (Error "No document provided in the request.") 400
      /\ snd (upload_document request_json s) = s
      /\ exists json_data,
           request_json = inr json_data /\ py_in "document" json_data = inr false).
Proof.
  unfold upload_document.
  destruct request_json as [e|json_data]; [discriminate|].
  destruct (py_in "document" json_data) as [e|[|]] eqn:Hin; [discriminate| |].
  - destruct json_data as [| b | n | str | items | fields]; simpl in Hin |- *;
      try discriminate.
    destruct (lookup "document" fields) as [d|] eqn:Hlookup; [|discriminate].
    destruct (model_validate G d) as [e|doc] eqn:Hvalid; [discriminate|].
    simpl. intros [= <-]. left. split; [reflexivity|].
    exists fields, d, doc. repeat split; assumption.
  - simpl. intros [= <-]. right. split; [reflexivity|]. split; [reflexivity|].
    exists json_data. split; [reflexivity | exact Hin].
Qed.

End Facts.

Lemma tools_need_a_document_witness :
  run_tool (AddTable "<table></table>" None None) Demo.no_document
  = (inl not_initialized, Demo.no_document).
Proof.
  apply (tools_need_a_document (G := Demo.engine) (AddTable "<table></table>" None None)
           Demo.no_document).
  reflexivity.
Defined.

(** A paragraph is refused while a list is open. *)
Lemma failed_tool_changes_nothing_witness :
  snd (run_tool (AddParagraph "text") Demo.list_open) = Demo.list_open.
Proof.
  apply (failed_tool_changes_nothing (G := Demo.engine) (AddParagraph "text")
           Demo.list_open
           "A list is currently opened. Please close the list before adding a paragraph!").
  reflexivity.
Defined.

Lemma stack_height_after_success_witness :
  document (snd (run_tool CloseList Demo.list_open)) <> None
  /\ length (stack_cache (snd (run_tool CloseList Demo.list_open)))
     = height_after CloseList (length (stack_cache Demo.list_open)).
Proof.
  apply (stack_height_after_success (G := Demo.engine) CloseList Demo.list_open
           (Demo.output_of (fst (run_tool CloseList Demo.list_open)))).
  reflexivity.
Defined.

Lemma open_then_close_restores_stack_witness :
  exists out',
    close_list_in_docling_document (snd Demo.opened)
    = (inr out', mk_shared (document (snd Demo.opened)) (stack_cache Demo.one_item)).
Proof.
  apply (open_then_close_restores_stack (G := Demo.engine) Demo.one_item
           (Demo.update_of (fst Demo.opened)) (snd Demo.opened)).
  reflexivity.
Defined.

Lemma open_list_decides_what_is_added_witness :
  if is_open_list (GroupItem "#/groups" LIST) then
    (forall title,
       add_title_to_docling_document title Demo.list_open
       = (inl "A list is currently opened. Please close the list before adding a title!",
          Demo.list_open))
    /\ (forall heading level,
          add_section_heading_to_docling_document heading level Demo.list_open
          = (inl "A list is currently opened. Please close the list before adding a section-heading!",
             Demo.list_open))
    /\ (forall paragraph,
          add_paragraph_to_docling_document paragraph Demo.list_open
          = (inl "A list is currently opened. Please close the list before adding a paragraph!",
             Demo.list_open))
    /\ (forall items,
          exists out doc',
            add_list_items_to_list_in_docling_document items Demo.list_open
            = (inr out, mk_shared (Some doc') (stack_cache Demo.list_open)))
  else
    forall items,
      add_list_items_to_list_in_docling_document items Demo.list_open
      = (inl "No list is currently opened. Please open a list before adding list-items!",
         Demo.list_open).
Proof.
  apply (open_list_decides_what_is_added (G := Demo.engine) Demo.list_open
           ["text prompt"; "group"] [DocItem "#/texts"] (GroupItem "#/groups" LIST)).
  - reflexivity.
  - reflexivity.
Defined.

Lemma upload_document_answers_witness :
  (mk_JSONResponse (Message "Document uploaded successfully.") 200
   = mk_JSONResponse (Message "Document uploaded successfully.") 200
   /\ exists fields d doc,
        @inr exn json (JObj [("document", JObj [])]) = inr (JObj fields)
        /\ lookup "document" fields = Some d
        /\ model_validate Demo.engine d = inr doc
        /\ snd (upload_document (inr (JObj [("document", JObj [])])) Demo.no_document)
           = mk_shared (Some doc) (stack_cache Demo.no_document))
  \/ (mk_JSONResponse (Message "Document uploaded successfully.") 200
      = mk_JSONResponse (Error "No document provided in the request.") 400
      /\ snd (upload_document (inr (JObj [("document", JObj [])])) Demo.no_document)
         = Demo.no_document
      /\ exists json_data,
           @inr exn json (JObj [("document", JObj [])]) = inr json_data
           /\ py_in "document" json_data = inr false).
Proof.
  apply (upload_document_answers (G := Demo.engine) (inr (JObj [("document", JObj [])]))
           Demo.no_document
           (mk_JSONResponse (Message "Document uploaded successfully.") 200)).
  reflexivity.
Defined.

End DoclingExtras.

(* ================================================================= *)
(** ** Properties of the sidecar *)

Module SidecarFacts.
Import Sidecar.

Lemma ends_with_spec (suffix name : string) :
  ends_with suffix name = true <-> exists key, name = key ++ suffix.
Proof.
  split.
  - induction name as [|c name IH]; cbn [ends_with].
    + destruct (String.eqb_spec EmptyString suffix) as [<-|]; [|discriminate].
      intros _. exists EmptyString. reflexivity.
    + destruct (String.eqb_spec (String c name) suffix) as [<-|].
      * intros _. exists EmptyString. reflexivity.
      * intros H. destruct (IH H) as (key & ->). exists (String c key). reflexivity.
  - intros (key & ->). induction key as [|c key IH]; cbn [append].
    + destruct suffix; cbn [ends_with]; rewrite String.eqb_refl; reflexivity.
    + cbn [ends_with]. rewrite IH. destruct (String.eqb (String c (key ++ suffix)) suffix);
        reflexivity.
Qed.




Lemma tidy_cache_agrees : scan_agrees Demo.tidy_cache.
Proof.
  split; [reflexivity|]. intros key. cbn [path_exists scanned Demo.tidy_cache].
  rewrite existsb_exists. split.
  - intros (y & Hin & Heq). apply String.eqb_eq in Heq. subst y. exact Hin.
  - intros Hin. exists (key ++ ".md"). split; [exact Hin | apply String.eqb_refl].
Qed.


End SidecarFacts.

